(** * 2019-nCoV dashboard: the refresh callbacks of [app.py]

    A shallow embedding of the four Dash callbacks of [app.py]
    ([update_graph], [update_counts], [update_province_map] and
    [update_city_map]) together with the fragment of the Python runtime they
    rely on, followed by the properties of the aggregation pipeline.

    Conventions.
    - A Python [str] is a Rocq [string] holding its UTF-8 bytes.  Python
      compares strings by code point, and on UTF-8 text byte order and code
      point order coincide, so [String.le] is the order used by [sorted].
    - A Python [int] is a [Z].
    - A decoded JSON object with a fixed set of keys is a record; a key the
      upstream may leave out is an [option] field and looking it up when it is
      absent raises [KeyError].  The payloads are thus well formed: every
      other key that a callback subscripts is there, the names and dates are
      strings and the counts are integers.  A JSON body of another shape
      (on which the subscripts raise [KeyError] or [TypeError]) is outside
      the model.
    - A callback either returns a value or raises: [result]. *)

From Stdlib Require Import ZArith String Ascii List Reals Lia.
From stdpp Require Import base option list strings sorting.

Local Open Scope string_scope.
Local Open Scope list_scope.
Local Open Scope Z_scope.

(** ** Python runtime *)

Module Py.

(** The exception classes that the callbacks can raise. *)
Inductive exn : Set :=
| ConnectionError   (* requests.get: the upstream cannot be reached *)
| HTTPError         (* Response.raise_for_status: 4xx or 5xx *)
| JSONDecodeError   (* Response.json: the body is not JSON *)
| KeyError          (* d[k] with k absent *)
| IndexError        (* l[i] with i out of range *)
| ValueError.       (* unpacking into the wrong number of names *)

(** [type(e).__name__] *)
Definition exn_name (e : exn) : string :=
  match e with
  | ConnectionError => "ConnectionError"
  | HTTPError => "HTTPError"
  | JSONDecodeError => "JSONDecodeError"
  | KeyError => "KeyError"
  | IndexError => "IndexError"
  | ValueError => "ValueError"
  end.

Inductive result (A : Type) : Type :=
| Ok (a : A)
| Raise (e : exn).
Arguments Ok {A} a.
Arguments Raise {A} e.

(** Sequencing: an exception ends the computation ([x ← r; k]). *)
Global Instance result_bind : MBind result := λ A B k r,
  match r with
  | Ok a => k a
  | Raise e => Raise e
  end.

Global Instance result_fmap : FMap result := λ A B f r,
  match r with
  | Ok a => Ok (f a)
  | Raise e => Raise e
  end.

(** *** Strings *)

(** [s.split(sep)] for a one-byte separator. *)
Fixpoint split (sep : ascii) (s : string) : list string :=
  match s with
  | EmptyString => [EmptyString]
  | String c s' =>
      if Ascii.eqb c sep then EmptyString :: split sep s'
      else match split sep s' with
           | [] => [String c EmptyString]
           | w :: ws => String c w :: ws
           end
  end.

(** [sep.join(l)] *)
Fixpoint join (sep : string) (l : list string) : string :=
  match l with
  | [] => EmptyString
  | [x] => x
  | x :: l' => x +:+ sep +:+ join sep l'
  end.

(** [n] copies of [c] in a row. *)
Fixpoint replicate_str (n : nat) (c : string) : string :=
  match n with
  | O => EmptyString
  | S n' => c +:+ replicate_str n' c
  end.

(** [s.rstrip(c)] where [c] is one character (its UTF-8 bytes): the
    trailing occurrences of [c] are removed ([rstrip_spec] below).  Read
    from the left: once the rest of the string has been stripped, the only
    way for a further occurrence of [c] to end the string is that what is
    left is [c]. *)
Fixpoint rstrip (c : string) (s : string) : string :=
  match s with
  | EmptyString => EmptyString
  | String a s' =>
      let r := String a (rstrip c s') in
      if String.eqb r c then EmptyString else r
  end.

(** *** Integers as decimal text *)

Definition digit_char (d : Z) : ascii := ascii_of_nat (48 + Z.to_nat d).

(** The decimal digits of [n ≥ 0], most significant first, in front of
    [acc].  A number below [2 ^ fuel] has at most [fuel] digits. *)
Fixpoint decimal_go (fuel : nat) (n : Z) (acc : string) : string :=
  match fuel with
  | O => acc
  | S fuel' =>
      let acc' := String (digit_char (n mod 10)) acc in
      if n <? 10 then acc' else decimal_go fuel' (n / 10) acc'
  end.

(** [str(n)] for [n ≥ 0] *)
Definition decimal (n : Z) : string :=
  decimal_go (S (Z.to_nat (Z.log2 n))) n EmptyString.

(** [s.zfill(w)] for a string of digits *)
Definition zfill (w : nat) (s : string) : string :=
  replicate_str (w - String.length s) "0" +:+ s.

(** [format(n, f"0{w}d")]: the minimum width [w] counts the sign, the
    padding zeros go between the sign and the digits, and a number that
    needs more than [w] characters is printed in full. *)
Definition format_0d (w : nat) (n : Z) : string :=
  if n <? 0 then "-" +:+ zfill (w - 1) (decimal (- n))
  else zfill w (decimal n).

(** The value of a string of decimal digits ([None] on any other byte). *)
Definition digit_value (c : ascii) : option Z :=
  let k := Z.of_nat (nat_of_ascii c) in
  if (48 <=? k) && (k <=? 57) then Some (k - 48) else None.

Fixpoint digits_value_go (acc : Z) (s : string) : option Z :=
  match s with
  | EmptyString => Some acc
  | String c s' =>
      match digit_value c with
      | Some d => digits_value_go (10 * acc + d) s'
      | None => None
      end
  end.

Definition digits_value (s : string) : option Z :=
  match s with
  | EmptyString => None
  | _ => digits_value_go 0 s
  end.

(** *** Tuples, [zip] and [sorted] *)

(** [zip(a, b, c, d, e)]: stops with the shortest argument. *)
Definition zip5 {A B C D E} (a : list A) (b : list B) (c : list C)
    (d : list D) (e : list E) : list (A * B * C * D * E) :=
  zip (zip (zip (zip a b) c) d) e.

(** [zip( *rows)] yields one tuple per component of the rows, and none at
    all when [rows] is empty. *)
Definition zip_star5 {A B C D E} (rows : list (A * B * C * D * E))
    : option (list A * list B * list C * list D * list E) :=
  match rows with
  | [] => None
  | _ => Some (map (λ r, r.1.1.1.1) rows, map (λ r, r.1.1.1.2) rows,
               map (λ r, r.1.1.2) rows, map (λ r, r.1.2) rows,
               map (λ r, r.2) rows)
  end.

(** [a, b, c, d, e = zip( *rows)]: binding five names to anything but five
    values raises [ValueError]. *)
Definition unpack5 {A B C D E} (rows : list (A * B * C * D * E))
    : result (list A * list B * list C * list D * list E) :=
  match zip_star5 rows with
  | Some cols => Ok cols
  | None => Raise ValueError
  end.

(** Tuples compare component by component, the first difference
    decides. *)
Definition lex (c1 c2 : comparison) : comparison :=
  match c1 with
  | Eq => c2
  | _ => c1
  end.

Definition prod_compare {A B} (cmpA : A → A → comparison)
    (cmpB : B → B → comparison) (p q : A * B) : comparison :=
  lex (cmpA p.1 q.1) (cmpB p.2 q.2).

(** [a < b], [a == b] or [a > b] for the tuples [(str, int, int, int, int)]
    that [update_graph] sorts. *)
Definition tuple_compare
    : string * Z * Z * Z * Z → string * Z * Z * Z * Z → comparison :=
  prod_compare (prod_compare (prod_compare (prod_compare
    String.compare Z.compare) Z.compare) Z.compare) Z.compare.

Definition le_of {A} (cmp : A → A → comparison) (a b : A) : Prop :=
  cmp a b ≠ Gt.

Definition tuple_le : relation (string * Z * Z * Z * Z) :=
  le_of tuple_compare.

Global Instance tuple_le_dec : RelDecision tuple_le.
Proof. intros a b. unfold tuple_le, le_of. apply _. Defined.

(** [sorted(rows)].  [tuple_le] is a total order on these tuples, so the
    sorted arrangement of a list is unique ([sorted_unique] below) and the
    choice of algorithm is immaterial. *)
Definition sorted (rows : list (string * Z * Z * Z * Z))
    : list (string * Z * Z * Z * Z) :=
  merge_sort tuple_le rows.

End Py.

Export Py.

(** ** requests *)

Module Requests.

(** What the upstream answers to one GET: a status code and, when the body
    parses as JSON, the decoded document. *)
Record Response (A : Type) : Type := {
  status_code : Z;
  body : option A;
}.
Arguments status_code {A} r.
Arguments body {A} r.

(** [requests.get(url)]; [None] stands for an upstream that cannot be
    reached.  The other ways in which [requests] can fail before it has a
    response (too many redirects, a broken transfer) are not modelled. *)
Definition get {A} (upstream : option (Response A)) : result (Response A) :=
  match upstream with
  | Some r => Ok r
  | None => Raise ConnectionError
  end.

(** [r.raise_for_status()] *)
Definition raise_for_status {A} (r : Response A) : result unit :=
  if (400 <=? status_code r) && (status_code r <? 600) then Raise HTTPError
  else Ok tt.

(** [r.json()] *)
Definition json {A} (r : Response A) : result A :=
  match body r with
  | Some a => Ok a
  | None => Raise JSONDecodeError
  end.

(** The three lines every callback starts with. *)
Definition fetch {A} (upstream : option (Response A)) : result A :=
  r ← get upstream;
  _ ← raise_for_status r;
  json r.

End Requests.

(** ** numpy *)

Module Np.

(** A float64, with rounding idealised: a finite value is given by the real
    number it approximates. *)
Inductive float64 : Type :=
| Finite (r : R)
| NegInf
| NaN.

(** The range of an int64. *)
Definition in_int64 (x : Z) : Prop := - 2 ^ 63 ≤ x < 2 ^ 63.

(** The int64 that an integer wraps around to. *)
Definition wrap_int64 (x : Z) : Z := (x + 2 ^ 63) mod 2 ^ 64 - 2 ^ 63.

(** [np.add(xs, 1)] for a column that numpy holds as an int64 array, that is
    a column whose elements all lie in the range of an int64: the sum wraps
    around, without an error.  For a column with an element outside that
    range numpy picks another dtype (uint64, float64 or object, depending on
    the elements and on its version); such columns are outside this model,
    and what is proved about the values of [np.log] is proved for columns in
    range. *)
Definition add1 (xs : list Z) : list Z := map (λ x, wrap_int64 (x + 1)) xs.

(** [np.log(x)] for one element: [-inf] at 0 and [nan] below.  The rounding
    of the result to a float64 is not modelled: [Finite r] stands for the
    float64 that approximates [r], so equal reals stand for equal floats,
    while reals that differ may stand for the same float. *)
Definition log1 (x : Z) : float64 :=
  if 0 <? x then Finite (ln (IZR x))
  else if x =? 0 then NegInf
  else NaN.

(** [np.log(xs)], element by element. *)
Definition log (xs : list Z) : list float64 := map log1 xs.

End Np.

(** ** plotly *)

Module Go.

(** [go.Scatter(x=..., y=..., name=...)] *)
Record Scatter : Type := {
  x : list string;
  y : list Z;
  name : string;
}.

(** A figure of [make_subplots]: the traces with the (row, column) of the
    subplot each was appended to. *)
Definition Subplots : Type := list (Scatter * (nat * nat)).

(** [go.Choroplethmapbox(locations=..., z=..., customdata=...)].  The
    custom data is kept as typed rows. *)
Record Choroplethmapbox : Type := {
  featureidkey : string;
  locations : list string;
  z : list Np.float64;
  customdata : list (string * Z * Z * Z * Z);
}.

End Go.

(** ** The payloads of the two endpoints *)

(** One element of [wuwei_ww_cn_day_counts]. *)
Record DayCount : Type := {
  date : string;
  confirm : Z;
  suspect : Z;
  dead : Z;
  heal : Z;
}.

(** One element of [wuwei_ww_global_vars]. *)
Record GlobalVars : Type := {
  confirmCount : Z;
  suspectCount : Z;
  deadCount : Z;
  cure : Z;
  update_time : string;
}.

(** [res["data"]] of the "qq" endpoint. *)
Record QQ : Type := {
  wuwei_ww_cn_day_counts : list DayCount;
  wuwei_ww_global_vars : list GlobalVars;
}.

Module City.
Record t : Type := {
  cityName : string;
  confirmedCount : Z;
  suspectedCount : Z;
  curedCount : Z;
  deadCount : Z;
}.
End City.

Module Province.
(** [cities] is the one key an entry may lack. *)
Record t : Type := {
  provinceName : string;
  provinceShortName : string;
  confirmedCount : Z;
  suspectedCount : Z;
  curedCount : Z;
  deadCount : Z;
  cities : option (list City.t);
}.
End Province.

(** [res["data"]] of the "dxy" endpoint. *)
Record DXY : Type := {
  getAreaStat : list Province.t;
}.

(** [datetime.now()] *)
Record datetime : Type := {
  year : Z;
  month : Z;
  day : Z;
  hour : Z;
  minute : Z;
  second : Z;
}.

(** [t.strftime("%Y-%m-%d %H:%M:%S")], for a year of four digits (below
    1000 the C library of the host decides whether [%Y] is padded). *)
Definition strftime (t : datetime) : string :=
  format_0d 4 (year t) +:+ "-" +:+ format_0d 2 (month t) +:+ "-"
  +:+ format_0d 2 (day t) +:+ " " +:+ format_0d 2 (hour t) +:+ ":"
  +:+ format_0d 2 (minute t) +:+ ":" +:+ format_0d 2 (second t).

(** ** app.py *)

Definition municipalities : list string :=
  ["北京"; "上海"; "天津"; "重庆"; "台湾"].

(** *** update_graph *)

Definition day_tuple (i : DayCount) : string * Z * Z * Z * Z :=
  (date i, confirm i, suspect i, dead i, heal i).

(** [f"2020-{'-'.join(i.split('/'))}"] *)
Definition format_date (i : string) : string :=
  "2020-" +:+ join "-" (split "/" i).

(** Lines 183-190: the five series drawn by the chart. *)
Definition update_graph_series (data : list DayCount)
    : result (list string * list Z * list Z * list Z * list Z) :=
  '(dates, confirmeds, suspecteds, deads, cureds) ←
    unpack5 (map day_tuple data);
  let dates := map format_date dates in
  unpack5 (sorted (zip5 dates confirmeds suspecteds deads cureds)).

Definition update_graph (upstream : option (Requests.Response QQ))
    : result Go.Subplots :=
  res ← Requests.fetch upstream;
  let data := wuwei_ww_cn_day_counts res in
  '(dates, confirmeds, suspecteds, deads, cureds) ← update_graph_series data;
  let trace_confirmed := {| Go.x := dates; Go.y := confirmeds; Go.name := "确诊" |} in
  let trace_suspected := {| Go.x := dates; Go.y := suspecteds; Go.name := "疑似" |} in
  let trace_cured := {| Go.x := dates; Go.y := cureds; Go.name := "治愈" |} in
  let trace_dead := {| Go.x := dates; Go.y := deads; Go.name := "死亡" |} in
  Ok [(trace_confirmed, (1, 1)); (trace_suspected, (1, 1));
      (trace_dead, (2, 1)); (trace_cured, (2, 1))]%nat.

(** *** update_counts *)

(** [l[0]] *)
Definition first {A} (l : list A) : result A :=
  match l !! 0%nat with
  | Some a => Ok a
  | None => Raise IndexError
  end.

(** Lines 249-260, given the decoded payload and the local clock. *)
Definition counts_of (now : datetime) (res : QQ)
    : result (string * string * string * string * string) :=
  confirmed ← confirmCount <$> first (wuwei_ww_global_vars res);
  suspected ← suspectCount <$> first (wuwei_ww_global_vars res);
  dead ← deadCount <$> first (wuwei_ww_global_vars res);
  cured ← cure <$> first (wuwei_ww_global_vars res);
  update_time ← update_time <$> first (wuwei_ww_global_vars res);
  Ok ("更新时间：" +:+ strftime now,
      format_0d 5 confirmed,
      format_0d 5 suspected,
      format_0d 5 dead,
      format_0d 5 cured).

Definition update_counts (now : datetime)
    (upstream : option (Requests.Response QQ))
    : result (string * string * string * string * string) :=
  res ← Requests.fetch upstream;
  counts_of now res.

(** *** update_province_map *)

Definition province_tuple (i : Province.t) : string * Z * Z * Z * Z :=
  (rstrip "市" (rstrip "省" (Province.provinceName i)),
   Province.confirmedCount i,
   Province.suspectedCount i,
   Province.curedCount i,
   Province.deadCount i).

(** Lines 268-303: the trace of the province map. *)
Definition province_trace (data : list Province.t)
    : result Go.Choroplethmapbox :=
  '(provinces, confirmeds, suspecteds, cureds, deads) ←
    unpack5 (map province_tuple data);
  let confirmeds_log := Np.log (Np.add1 confirmeds) in
  Ok {| Go.featureidkey := "properties.NL_NAME_1";
        Go.locations := provinces;
        Go.z := confirmeds_log;
        Go.customdata := zip5 provinces confirmeds suspecteds cureds deads |}.

Definition update_province_map (upstream : option (Requests.Response DXY))
    : result Go.Choroplethmapbox :=
  res ← Requests.fetch upstream;
  province_trace (getAreaStat res).

(** *** update_city_map *)

(** The five lists that the loop fills in step; they are also the columns
    of the data frame written to [cities_data.csv]. *)
Record columns : Type := {
  cities : list string;
  confirmeds : list Z;
  suspecteds : list Z;
  cureds : list Z;
  deads : list Z;
}.

Definition no_rows : columns :=
  {| cities := []; confirmeds := []; suspecteds := [];
     cureds := []; deads := [] |}.

(** The five [append]s of one pass. *)
Definition append_row (t : columns) (r : string * Z * Z * Z * Z) : columns :=
  let '(name, confirmed, suspected, cured, dead) := r in
  {| cities := cities t ++ [name];
     confirmeds := confirmeds t ++ [confirmed];
     suspecteds := suspecteds t ++ [suspected];
     cureds := cureds t ++ [cured];
     deads := deads t ++ [dead] |}.

Definition municipality_row (province : Province.t) : string * Z * Z * Z * Z :=
  (Province.provinceShortName province,
   Province.confirmedCount province,
   Province.suspectedCount province,
   Province.curedCount province,
   Province.deadCount province).

Definition city_row (city : City.t) : string * Z * Z * Z * Z :=
  (City.cityName city,
   City.confirmedCount city,
   City.suspectedCount city,
   City.curedCount city,
   City.deadCount city).

(** [province['cities']] *)
Definition cities_of (province : Province.t) : result (list City.t) :=
  match Province.cities province with
  | Some l => Ok l
  | None => Raise KeyError
  end.

(** The body of [for province in data] (lines 322-336). *)
Definition province_pass (t : columns) (province : Province.t) : result columns :=
  if bool_decide (Province.provinceShortName province ∈ municipalities) then
    Ok (append_row t (municipality_row province))
  else
    l ← cities_of province;
    Ok (foldl (λ t city, append_row t (city_row city)) t l).

(** [for province in data: ...], from the lists built so far. *)
Fixpoint province_loop (t : columns) (data : list Province.t) : result columns :=
  match data with
  | [] => Ok t
  | province :: data' =>
      t' ← province_pass t province;
      province_loop t' data'
  end.

(** The rows of the table, read across the five lists. *)
Definition rows_of (t : columns) : list (string * Z * Z * Z * Z) :=
  zip5 (cities t) (confirmeds t) (suspecteds t) (cureds t) (deads t).

(** The files the process writes. *)
Record files : Type := {
  cities_data_csv : option columns;
}.

(** Lines 316-377.  The callback returns the trace of the city map or
    raises, and leaves the files as it made them. *)
Definition update_city_map (upstream : option (Requests.Response DXY))
    (fs : files) : result Go.Choroplethmapbox * files :=
  match
    res ← Requests.fetch upstream;
    province_loop no_rows (getAreaStat res)
  with
  | Raise e => (Raise e, fs)
  | Ok t =>
      let confirmeds_log := Np.log (Np.add1 (confirmeds t)) in
      let fs' := {| cities_data_csv := Some t |} in
      (Ok {| Go.featureidkey := "properties.NAME";
             Go.locations := cities t;
             Go.z := confirmeds_log;
             Go.customdata := rows_of t |},
       fs')
  end.

(** *** The page *)

(** Dash stores what a callback returns in the property named by its
    [Output]; when the callback raises, the property keeps its value. *)
Definition publish {A} (current : option A) (r : result A) : option A :=
  match r with
  | Ok a => Some a
  | Raise _ => current
  end.

(** The figure shown as [city-level-map], and the files on disk. *)
Record dashboard : Type := {
  city_level_map : option Go.Choroplethmapbox;
  disk : files;
}.

(** One tick of [interval-component], as far as the city map goes. *)
Definition city_map_tick (upstream : option (Requests.Response DXY))
    (d : dashboard) : dashboard :=
  let '(r, fs) := update_city_map upstream (disk d) in
  {| city_level_map := publish (city_level_map d) r; disk := fs |}.

(** *** timestamp2datetime *)

Section timestamp2datetime.
(** [pd.datetime.fromtimestamp]: the local time of an epoch, which depends
    on the time zone of the host. *)
Variable fromtimestamp : Z → datetime.

Definition timestamp2datetime (t : Z) : string :=
  strftime (fromtimestamp t).
End timestamp2datetime.

(** *** The hover text of the two maps *)

(** [str(n)] *)
Definition str_int (n : Z) : string :=
  if n <? 0 then "-" +:+ decimal (- n) else decimal n.

(** A row of [np.vstack((names, confirmeds, suspecteds, cureds, deads)).T]:
    joined to the names, the numbers become their decimal text. *)
Definition customdata_cells (r : string * Z * Z * Z * Z) : list string :=
  let '(name, confirmed, suspected, cured, dead) := r in
  [name; str_int confirmed; str_int suspected; str_int cured; str_int dead].

(** Line 296-301. *)
Definition province_hovertemplate : string :=
  "<b>%{customdata[0]}</b><br><br>"
  +:+ "确诊：%{customdata[1]}<br>"
  +:+ "疑似：%{customdata[2]}<br>"
  +:+ "治愈：%{customdata[3]}<br>"
  +:+ "死亡：%{customdata[4]}<br>"
  +:+ "<extra></extra>".

(** Line 362-367. *)
Definition city_hovertemplate : string :=
  "<b>%{customdata[0]}</b><br><br>"
  +:+ "确诊：%{customdata[1]}<br>"
  +:+ "疑似：%{customdata[1]}<br>"
  +:+ "治愈：%{customdata[2]}<br>"
  +:+ "死亡：%{customdata[3]}<br>"
  +:+ "<extra></extra>".

(** The index [i] when [s] starts with the 16 bytes [%{customdata[i]}]. *)
Definition placeholder_at (s : string) : option nat :=
  if String.prefix "%{customdata[" s && String.eqb (substring 14 2 s) "]}" then
    c ← String.get 13 s;
    d ← digit_value c;
    Some (Z.to_nat d)
  else None.

(** What plotly shows for one point: every [%{customdata[i]}] of the
    template gives way to cell [i] of the point, the rest is kept.  [skip]
    counts the bytes of a placeholder still to pass over. *)
Fixpoint render_hover (cells : list string) (skip : nat) (template : string)
    : string :=
  match template with
  | EmptyString => EmptyString
  | String c rest =>
      match skip with
      | S skip' => render_hover cells skip' rest
      | O =>
          match placeholder_at template ≫= (cells !!.) with
          | Some cell => cell +:+ render_hover cells 15 rest
          | None => String c (render_hover cells 0 rest)
          end
      end
  end.

Definition hover_text (template : string) (r : string * Z * Z * Z * Z) : string :=
  render_hover (customdata_cells r) 0 template.

(** ** Notions used in the statements *)

(** A three-way comparison that decides a total order. *)
Class TotalCompare {A} (cmp : A → A → comparison) : Prop := {
  cmp_eq a b : cmp a b = Eq → a = b;
  cmp_refl a : cmp a a = Eq;
  cmp_antisym a b : cmp b a = CompOpp (cmp a b);
  cmp_trans a b c : cmp a b = Lt → cmp b c = Lt → cmp a c = Lt;
}.

(** The calendar date written by a string "Y-M-D", as (year, month, day). *)
Definition calendar_key (d : string) : option (Z * Z * Z) :=
  match split "-" d with
  | [y; m; dd] =>
      y ← digits_value y; m ← digits_value m; dd ← digits_value dd;
      Some (y, m, dd)
  | _ => None
  end.

(** [a] is a date no later than [b]. *)
Definition calendar_le (a b : string) : Prop :=
  match calendar_key a, calendar_key b with
  | Some ka, Some kb =>
      le_of (prod_compare (prod_compare Z.compare Z.compare) Z.compare) ka kb
  | _, _ => False
  end.

Global Instance calendar_le_dec : RelDecision calendar_le.
Proof.
  intros a b. unfold calendar_le, le_of.
  destruct (calendar_key a), (calendar_key b); apply _.
Defined.

(** A date "MM/DD" with both numbers written on two digits. *)
Definition padded_date (s : string) : Prop :=
  ∃ m1 m2 d1 d2,
    (0 ≤ m1 < 10 ∧ 0 ≤ m2 < 10 ∧ 0 ≤ d1 < 10 ∧ 0 ≤ d2 < 10)
    ∧ s = String (digit_char m1) (String (digit_char m2) (String "/"
            (String (digit_char d1) (String (digit_char d2) "")))).

(** [s] ends with [c]. *)
Definition ends_with (s c : string) : Prop := ∃ p, s = p +:+ c.

(** The fetch fails: the upstream cannot be reached, or it answers with a
    4xx or 5xx status. *)
Definition upstream_failed {A} (upstream : option (Requests.Response A)) : Prop :=
  match upstream with
  | None => True
  | Some r => 400 ≤ Requests.status_code r < 600
  end.

(** [s] writes [n] in decimal, with zeros in front up to the width [w] and
    with more than [w] digits exactly when [n] does not fit in [w]; a string
    longer than [w] has no zero in front: [n] needs all of its digits.  There
    is one such string ([zero_padded_unique] below). *)
Definition zero_padded (w : nat) (n : Z) (s : string) : Prop :=
  digits_value s = Some n
  ∧ (w ≤ String.length s)%nat
  ∧ (String.length s = w ↔ n < 10 ^ Z.of_nat w)
  ∧ ((w < String.length s)%nat → 10 ^ (Z.of_nat (String.length s) - 1) ≤ n).

(** A string of exactly five decimal digits. *)
Definition five_digits (s : string) : Prop :=
  String.length s = 5%nat ∧ is_Some (digits_value s).

(** The five lists of the city table have one entry per row. *)
Definition aligned (t : columns) : Prop :=
  length (confirmeds t) = length (cities t)
  ∧ length (suspecteds t) = length (cities t)
  ∧ length (cureds t) = length (cities t)
  ∧ length (deads t) = length (cities t).

(** The table [t1] followed by the rows of [t2]. *)
Definition columns_app (t1 t2 : columns) : columns :=
  {| cities := cities t1 ++ cities t2;
     confirmeds := confirmeds t1 ++ confirmeds t2;
     suspecteds := suspecteds t1 ++ suspecteds t2;
     cureds := cureds t1 ++ cureds t2;
     deads := deads t1 ++ deads t2 |}.

(** Two global-variables records that differ at most in [update_time]. *)
Definition same_but_update_time (g1 g2 : GlobalVars) : Prop :=
  confirmCount g1 = confirmCount g2
  ∧ suspectCount g1 = suspectCount g2
  ∧ deadCount g1 = deadCount g2
  ∧ cure g1 = cure g2.

(** Two payloads of the "qq" endpoint that differ at most in the
    [update_time] of their global variables. *)
Definition agree_except_update_time (res1 res2 : QQ) : Prop :=
  wuwei_ww_cn_day_counts res1 = wuwei_ww_cn_day_counts res2
  ∧ Forall2 same_but_update_time
      (wuwei_ww_global_vars res1) (wuwei_ww_global_vars res2).

(** [s] with every byte [a] replaced by [b]. *)
Fixpoint replace_char (a b : ascii) (s : string) : string :=
  match s with
  | EmptyString => EmptyString
  | String c s' => String (if Ascii.eqb c a then b else c) (replace_char a b s')
  end.

(** An entry that the city map cannot draw: it is not a municipality and
    has no [cities] key. *)
Definition lacks_cities (p : Province.t) : Prop :=
  (Province.provinceShortName p ∉ municipalities) ∧ Province.cities p = None.

(** The rows that an entry stands for in the city table. *)
Definition contribution (p : Province.t) : list (string * Z * Z * Z * Z) :=
  if bool_decide (Province.provinceShortName p ∈ municipalities) then
    [municipality_row p]
  else
    match Province.cities p with
    | Some l => map city_row l
    | None => []
    end.

(** Two entries with the same short name that agree on what the short name
    selects: the counts of the province for a municipality, the [cities] key
    for any other entry. *)
Definition same_for_city_map (p q : Province.t) : Prop :=
  Province.provinceShortName p = Province.provinceShortName q
  ∧ if bool_decide (Province.provinceShortName p ∈ municipalities) then
      Province.confirmedCount p = Province.confirmedCount q
      ∧ Province.suspectedCount p = Province.suspectedCount q
      ∧ Province.curedCount p = Province.curedCount q
      ∧ Province.deadCount p = Province.deadCount q
    else Province.cities p = Province.cities q.

(** Two entries with the same display name and the same four counts. *)
Definition same_for_province_map (p q : Province.t) : Prop :=
  Province.provinceName p = Province.provinceName q
  ∧ Province.confirmedCount p = Province.confirmedCount q
  ∧ Province.suspectedCount p = Province.suspectedCount q
  ∧ Province.curedCount p = Province.curedCount q
  ∧ Province.deadCount p = Province.deadCount q.

(** A clock reading with a four-digit year. *)
Definition clock_reading (t : datetime) : Prop :=
  1000 ≤ year t < 10000 ∧ 1 ≤ month t ≤ 12 ∧ 1 ≤ day t ≤ 31
  ∧ 0 ≤ hour t < 24 ∧ 0 ≤ minute t < 60 ∧ 0 ≤ second t < 60.

(** ** Sample payloads *)

Definition hubei (confirmed : Z) : Province.t :=
  {| Province.provinceName := "湖北省";
     Province.provinceShortName := "湖北";
     Province.confirmedCount := confirmed;
     Province.suspectedCount := 0;
     Province.curedCount := 0;
     Province.deadCount := 0;
     Province.cities := None |}.

Definition chaoyang : City.t :=
  {| City.cityName := "朝阳区"; City.confirmedCount := 28;
     City.suspectedCount := 0; City.curedCount := 2; City.deadCount := 0 |}.

Definition wuhan : City.t :=
  {| City.cityName := "武汉"; City.confirmedCount := 4109;
     City.suspectedCount := 0; City.curedCount := 224; City.deadCount := 224 |}.

Definition huanggang : City.t :=
  {| City.cityName := "黄冈"; City.confirmedCount := 1002;
     City.suspectedCount := 0; City.curedCount := 27; City.deadCount := 15 |}.

(** A municipality that also lists its districts. *)
Definition beijing : Province.t :=
  {| Province.provinceName := "北京市";
     Province.provinceShortName := "北京";
     Province.confirmedCount := 183;
     Province.suspectedCount := 0;
     Province.curedCount := 9;
     Province.deadCount := 1;
     Province.cities := Some [chaoyang] |}.

Definition hubei_cities : Province.t :=
  {| Province.provinceName := "湖北省";
     Province.provinceShortName := "湖北";
     Province.confirmedCount := 9074;
     Province.suspectedCount := 0;
     Province.curedCount := 215;
     Province.deadCount := 294;
     Province.cities := Some [wuhan; huanggang] |}.

(** Hubei with its two cities, under another short name and with the
    province-level counts of [hubei 9074]. *)
Definition hubei_cities_only : Province.t :=
  {| Province.provinceName := "湖北省";
     Province.provinceShortName := "鄂";
     Province.confirmedCount := 9074;
     Province.suspectedCount := 0;
     Province.curedCount := 0;
     Province.deadCount := 0;
     Province.cities := Some [wuhan; huanggang] |}.

(** Beijing without its districts, under another display name. *)
Definition beijing_bare : Province.t :=
  {| Province.provinceName := "北京";
     Province.provinceShortName := "北京";
     Province.confirmedCount := 183;
     Province.suspectedCount := 0;
     Province.curedCount := 9;
     Province.deadCount := 1;
     Province.cities := None |}.

(** Hubei with the same cities and other province-level counts. *)
Definition hubei_renamed : Province.t :=
  {| Province.provinceName := "湖北";
     Province.provinceShortName := "湖北";
     Province.confirmedCount := 0;
     Province.suspectedCount := 0;
     Province.curedCount := 0;
     Province.deadCount := 0;
     Province.cities := Some [wuhan; huanggang] |}.

Definition jan23 : DayCount :=
  {| date := "1/23"; confirm := 100; suspect := 50; dead := 2; heal := 5 |}.

Definition feb01 : DayCount :=
  {| date := "2/1"; confirm := 14380; suspect := 19544; dead := 304;
     heal := 328 |}.

Definition feb09 : DayCount :=
  {| date := "2/9"; confirm := 40171; suspect := 23589; dead := 908;
     heal := 3281 |}.

Definition feb10 : DayCount :=
  {| date := "2/10"; confirm := 42638; suspect := 21675; dead := 1016;
     heal := 3996 |}.

(** A second record for the same day, with another count. *)
Definition jan23_recount : DayCount :=
  {| date := "1/23"; confirm := 90; suspect := 60; dead := 2; heal := 5 |}.

(** The chart for [jan23] alone. *)
Definition jan23_figure : Go.Subplots :=
  [({| Go.x := ["2020-1-23"]; Go.y := [100]; Go.name := "确诊" |}, (1, 1)%nat);
   ({| Go.x := ["2020-1-23"]; Go.y := [50]; Go.name := "疑似" |}, (1, 1)%nat);
   ({| Go.x := ["2020-1-23"]; Go.y := [2]; Go.name := "死亡" |}, (2, 1)%nat);
   ({| Go.x := ["2020-1-23"]; Go.y := [5]; Go.name := "治愈" |}, (2, 1)%nat)].

Definition noon : datetime :=
  {| year := 2020; month := 2; day := 1; hour := 12; minute := 0; second := 0 |}.

Definition totals (confirmed : Z) : GlobalVars :=
  {| confirmCount := confirmed; suspectCount := 15238; deadCount := 259;
     cure := 243; update_time := "2020-02-01 11:44:29" |}.

(** The same totals as reported by the upstream an hour later. *)
Definition later_totals (confirmed : Z) : GlobalVars :=
  {| confirmCount := confirmed; suspectCount := 15238; deadCount := 259;
     cure := 243; update_time := "2020-02-01 12:44:29" |}.

(** A reply with the given status and decoded body. *)
Definition reply {A} (status : Z) (a : A) : option (Requests.Response A) :=
  Some {| Requests.status_code := status; Requests.body := Some a |}.

(** The trace of the province map for [hubei confirmed] alone. *)
Definition hubei_trace (confirmed : Z) : Go.Choroplethmapbox :=
  {| Go.featureidkey := "properties.NL_NAME_1";
     Go.locations := ["湖北"];
     Go.z := [Np.log1 (Np.wrap_int64 (confirmed + 1))];
     Go.customdata := [("湖北", confirmed, 0, 0, 0)] |}.

(** The trace of the province map for [beijing] and [hubei_cities]. *)
Definition two_provinces_trace : Go.Choroplethmapbox :=
  {| Go.featureidkey := "properties.NL_NAME_1";
     Go.locations := ["北京"; "湖北"];
     Go.z := [Np.log1 (183 + 1); Np.log1 (9074 + 1)];
     Go.customdata := [("北京", 183, 0, 9, 1); ("湖北", 9074, 0, 215, 294)] |}.

(** A page that shows a city map, with the table of an earlier tick on disk. *)
Definition published : dashboard :=
  {| city_level_map :=
       Some {| Go.featureidkey := "properties.NAME";
               Go.locations := ["武汉"];
               Go.z := [Np.log1 (618 + 1)];
               Go.customdata := [("武汉", 618, 0, 40, 45)] |};
     disk :=
       {| cities_data_csv :=
            Some {| cities := ["武汉"]; confirmeds := [618]; suspecteds := [0];
                    cureds := [40]; deads := [45] |} |} |}.

(** ** The order used by [sorted] *)

Section total_compare.
Context {A} (cmp : A → A → comparison) `{!TotalCompare cmp}.

Lemma cmp_gt_lt a b : cmp a b = Gt ↔ cmp b a = Lt.
Proof. rewrite (cmp_antisym (cmp:=cmp) a b). destruct (cmp a b); simpl; split; congruence. Qed.

Lemma cmp_eq_iff a b : cmp a b = Eq ↔ a = b.
Proof. split; [apply cmp_eq | intros ->; apply cmp_refl]. Qed.

Global Instance le_of_refl : Reflexive (le_of cmp).
Proof. intros a. unfold le_of. by rewrite (cmp_refl (cmp:=cmp)). Qed.

Global Instance le_of_total : Total (le_of cmp).
Proof.
  intros a b. unfold le_of. rewrite (cmp_antisym (cmp:=cmp) a b).
  destruct (cmp a b); simpl; auto.
Qed.

Global Instance le_of_trans : Transitive (le_of cmp).
Proof.
  intros a b c. unfold le_of. intros Hab Hbc Hac.
  apply cmp_gt_lt in Hac.
  destruct (cmp a b) eqn:Eab; [| |done].
  - apply cmp_eq in Eab as ->. apply cmp_gt_lt in Hac. done.
  - destruct (cmp b c) eqn:Ebc; [| |done].
    + apply cmp_eq in Ebc as ->. apply cmp_gt_lt in Hac. congruence.
    + pose proof (cmp_trans _ _ _ Hac Eab) as Hcb.
      apply cmp_gt_lt in Hcb. congruence.
Qed.

Global Instance le_of_antisymm : AntiSymm (=) (le_of cmp).
Proof.
  intros a b. unfold le_of. rewrite (cmp_antisym (cmp:=cmp) a b).
  destruct (cmp a b) eqn:Eab; simpl; try done.
  intros _ _. by apply cmp_eq.
Qed.
End total_compare.

Global Instance Z_compare_total : TotalCompare Z.compare.
Proof.
  split.
  - apply Z.compare_eq.
  - apply Z.compare_refl.
  - intros a b. apply Z.compare_antisym.
  - intros a b c. rewrite !Z.compare_lt_iff. lia.
Qed.

Lemma string_compare_refl s : String.compare s s = Eq.
Proof.
  induction s as [|a s IH]; simpl; [done|].
  unfold Ascii.compare. by rewrite N.compare_refl.
Qed.

Lemma string_le_compare a b : String.le a b ↔ le_of String.compare a b.
Proof.
  unfold String.le, String.leb, le_of.
  destruct (String.compare a b); simpl; split; done.
Qed.

Global Instance string_compare_total : TotalCompare String.compare.
Proof.
  split.
  - apply String.compare_eq_iff.
  - apply string_compare_refl.
  - intros a b. apply String.compare_antisym.
  - intros a b c Hab Hbc.
    assert (String.le a c) as Hac.
    { trans b; apply string_le_compare; unfold le_of; congruence. }
    apply string_le_compare in Hac. unfold le_of in Hac.
    destruct (String.compare a c) eqn:Eac; [|done..].
    apply String.compare_eq_iff in Eac as ->.
    rewrite String.compare_antisym, Hab in Hbc. done.
Qed.

Global Instance prod_compare_total {A B} (cmpA : A → A → comparison)
    (cmpB : B → B → comparison) `{!TotalCompare cmpA, !TotalCompare cmpB} :
  TotalCompare (prod_compare cmpA cmpB).
Proof.
  split; unfold prod_compare, lex.
  - intros [a1 b1] [a2 b2]; simpl.
    destruct (cmpA a1 a2) eqn:Ea; [|done..].
    intros Eb. apply cmp_eq in Ea, Eb. by subst.
  - intros [a b]; simpl. by rewrite !cmp_refl.
  - intros [a1 b1] [a2 b2]; simpl.
    rewrite (cmp_antisym (cmp:=cmpA) a1 a2).
    destruct (cmpA a1 a2); simpl; [apply cmp_antisym|done..].
  - intros [a1 b1] [a2 b2] [a3 b3]; simpl.
    destruct (cmpA a1 a2) eqn:E12; [| |done].
    + apply cmp_eq in E12 as ->.
      destruct (cmpA a2 a3); [|done..]. apply cmp_trans.
    + intros _. destruct (cmpA a2 a3) eqn:E23; [| |done].
      * apply cmp_eq in E23 as ->. by rewrite E12.
      * by rewrite (cmp_trans _ _ _ E12 E23).
Qed.

Global Instance tuple_compare_total : TotalCompare tuple_compare.
Proof. unfold tuple_compare. apply _. Qed.

Lemma prod_compare_le_fst {A B} (cmpA : A → A → comparison)
    (cmpB : B → B → comparison) p q :
  le_of (prod_compare cmpA cmpB) p q → le_of cmpA p.1 q.1.
Proof. unfold le_of, prod_compare, lex. by destruct (cmpA p.1 q.1). Qed.

Lemma tuple_le_date a b : tuple_le a b → String.le a.1.1.1.1 b.1.1.1.1.
Proof.
  intros H. apply string_le_compare.
  by do 4 apply prod_compare_le_fst in H.
Qed.

(** Any two sorted arrangements of the same tuples are equal: the result of
    [sorted] does not depend on the sorting algorithm. *)
Lemma sorted_unique (rows l : list (string * Z * Z * Z * Z)) :
  Sorted tuple_le l → l ≡ₚ rows → l = sorted rows.
Proof.
  intros Hl Hp. apply (Sorted_unique tuple_le); [done| |].
  - apply (Sorted_merge_sort tuple_le).
  - rewrite Hp. symmetry. apply (merge_sort_Permutation tuple_le).
Qed.

(** ** Sequencing *)

Lemma fmap_Ok {A B} (f : A → B) (a : A) : f <$> Ok a = Ok (f a).
Proof. reflexivity. Qed.

Lemma fmap_Raise {A B} (f : A → B) e : f <$> (Raise e : result A) = Raise e.
Proof. reflexivity. Qed.

Lemma bind_Ok {A B} (k : A → result B) (a : A) : Ok a ≫= k = k a.
Proof. reflexivity. Qed.

Lemma bind_Raise {A B} (k : A → result B) e : (Raise e : result A) ≫= k = Raise e.
Proof. reflexivity. Qed.

(** ** Unpacking and zipping *)

Section unpack.
Context {A B C D E : Type}.
Implicit Types rows : list (A * B * C * D * E).

Lemma unpack5_nonempty rows :
  rows ≠ [] →
  unpack5 rows =
    Ok (map (λ r, r.1.1.1.1) rows, map (λ r, r.1.1.1.2) rows,
        map (λ r, r.1.1.2) rows, map (λ r, r.1.2) rows,
        map (λ r, r.2) rows).
Proof. by destruct rows. Qed.

Lemma unpack5_empty : unpack5 (@nil (A * B * C * D * E)) = Raise ValueError.
Proof. reflexivity. Qed.

Lemma zip5_projections rows :
  zip5 (map (λ r, r.1.1.1.1) rows) (map (λ r, r.1.1.1.2) rows)
       (map (λ r, r.1.1.2) rows) (map (λ r, r.1.2) rows)
       (map (λ r, r.2) rows) = rows.
Proof.
  unfold zip5. induction rows as [|[[[[a b] c] d] e] rows IH]; simpl; [done|].
  by rewrite IH.
Qed.

Lemma zip5_snoc (la : list A) (lb : list B) (lc : list C) (ld : list D)
    (le : list E) a b c d e :
  length lb = length la → length lc = length la →
  length ld = length la → length le = length la →
  zip5 (la ++ [a]) (lb ++ [b]) (lc ++ [c]) (ld ++ [d]) (le ++ [e])
  = zip5 la lb lc ld le ++ [(a, b, c, d, e)].
Proof.
  intros Hb Hc Hd He. unfold zip5.
  rewrite !zip_with_app; rewrite ?length_zip_with; simpl; try done; lia.
Qed.

Lemma length_zip5 (la : list A) (lb : list B) (lc : list C) (ld : list D)
    (le : list E) :
  length lb = length la → length lc = length la →
  length ld = length la → length le = length la →
  length (zip5 la lb lc ld le) = length la.
Proof.
  intros Hb Hc Hd He. unfold zip5. rewrite !length_zip_with. lia.
Qed.
End unpack.

(** ** update_graph *)

(** The tuple that a record of the payload becomes before sorting. *)
Lemma zip5_day_tuples (data : list DayCount) :
  zip5 (map format_date (map (λ r, r.1.1.1.1) (map day_tuple data)))
       (map (λ r, r.1.1.1.2) (map day_tuple data))
       (map (λ r, r.1.1.2) (map day_tuple data))
       (map (λ r, r.1.2) (map day_tuple data))
       (map (λ r, r.2) (map day_tuple data))
  = map (λ i, (format_date (date i), confirm i, suspect i, dead i, heal i)) data.
Proof.
  unfold zip5. induction data as [|i data IH]; simpl; [done|]. by rewrite IH.
Qed.

Lemma update_graph_series_eq (data : list DayCount) :
  data ≠ [] →
  let rows :=
    sorted (map (λ i, (format_date (date i), confirm i, suspect i, dead i,
                       heal i)) data) in
  update_graph_series data =
    Ok (map (λ r, r.1.1.1.1) rows, map (λ r, r.1.1.1.2) rows,
        map (λ r, r.1.1.2) rows, map (λ r, r.1.2) rows, map (λ r, r.2) rows).
Proof.
  intros Hdata rows. unfold update_graph_series.
  rewrite unpack5_nonempty by (by destruct data).
  simpl. rewrite zip5_day_tuples. apply unpack5_nonempty.
  intros Hnil. apply Hdata.
  assert (rows ≡ₚ map (λ i, (format_date (date i), confirm i, suspect i,
                             dead i, heal i)) data) as Hp
    by apply (merge_sort_Permutation tuple_le).
  fold rows in Hnil. rewrite Hnil in Hp.
  apply Permutation_nil_l in Hp. by destruct data.
Qed.

(** What lines 184-190 do achieve: on a non-empty payload [update_graph]
    computes five sequences; the dates are non-decreasing in the order of
    their strings (character by character), each value sequence is as long
    as the date sequence and the payload, and read across the five sequences
    the rows are the records of the payload rearranged, each date with its
    own four counts. *)
Theorem update_graph_series_sorted (data : list DayCount) :
  data ≠ [] →
  ∃ dates confirmeds suspecteds deads cureds,
    update_graph_series data = Ok (dates, confirmeds, suspecteds, deads, cureds)
    ∧ Sorted String.le dates
    ∧ length dates = length data
    ∧ length confirmeds = length dates
    ∧ length suspecteds = length dates
    ∧ length deads = length dates
    ∧ length cureds = length dates
    ∧ zip5 dates confirmeds suspecteds deads cureds
      ≡ₚ map (λ i, (format_date (date i), confirm i, suspect i, dead i,
                    heal i)) data.
Proof.
  intros Hdata. do 5 eexists. split; [by apply update_graph_series_eq|].
  set (rows := sorted _).
  assert (rows ≡ₚ map (λ i, (format_date (date i), confirm i, suspect i,
                             dead i, heal i)) data) as Hp
    by apply (merge_sort_Permutation tuple_le).
  split.
  { apply (Sorted_fmap (λ r : string * Z * Z * Z * Z, r.1.1.1.1)
             tuple_le String.le).
    - intros a b. apply tuple_le_date.
    - apply (Sorted_merge_sort tuple_le). }
  rewrite !length_map. rewrite zip5_projections.
  repeat split; try done.
  by rewrite Hp, length_map.
Qed.

Lemma update_graph_series_sorted_witness :
  [jan23] ≠ []
  ∧ ∃ dates confirmeds suspecteds deads cureds,
      update_graph_series [jan23]
      = Ok (dates, confirmeds, suspecteds, deads, cureds)
      ∧ Sorted String.le dates
      ∧ length dates = 1%nat
      ∧ length confirmeds = length dates
      ∧ length suspecteds = length dates
      ∧ length deads = length dates
      ∧ length cureds = length dates
      ∧ zip5 dates confirmeds suspecteds deads cureds
        ≡ₚ [("2020-1-23", 100, 50, 2, 5)].
Proof.
  assert ([jan23] ≠ []) as H by discriminate.
  split; [exact H|]. apply (update_graph_series_sorted [jan23] H).
Defined.

(** The order of the strings is not that of the calendar: the dates "1/3"
    and "1/23" come out as "2020-1-23" before "2020-1-3". *)
Lemma update_graph_series_not_calendar_order :
  ¬ ∃ dates confirmeds suspecteds deads cureds,
      update_graph_series
        [{| date := "1/3"; confirm := 1; suspect := 2; dead := 3; heal := 4 |};
         {| date := "1/23"; confirm := 5; suspect := 6; dead := 7; heal := 8 |}]
      = Ok (dates, confirmeds, suspecteds, deads, cureds)
      ∧ Sorted calendar_le dates.
Proof.
  intros (dates & cs & ss & ds & hs & Hrun & Hsorted).
  vm_compute in Hrun. injection Hrun as <- _ _ _ _.
  revert Hsorted. apply (bool_decide_eq_false_1 _). vm_compute. reflexivity.
Qed.

(** C1, where the code departs from the claim: lines 187-190 sort the rows
    by date, but they compare the dates as the strings "2020-M-D", and a
    payload whose days or months are not written on two digits comes out of
    calendar order.  The records of "2/9" and "2/10", given in this order,
    are returned with "2020-2-10" before "2020-2-9", each with its own four
    counts; the date sequence returned is not non-decreasing in calendar
    order, where the payload was. *)
Theorem update_graph_unpadded_dates (a b : DayCount) :
  date a = "2/9" → date b = "2/10" →
  update_graph_series [a; b]
  = Ok (["2020-2-10"; "2020-2-9"], [confirm b; confirm a],
        [suspect b; suspect a], [dead b; dead a], [heal b; heal a])
  ∧ Sorted calendar_le (map format_date [date a; date b])
  ∧ ¬ Sorted calendar_le ["2020-2-10"; "2020-2-9"].
Proof.
  destruct a as [da ca sa xa ha], b as [db cb sb xb hb].
  cbn [date confirm suspect dead heal]. intros -> ->.
  split; [|split].
  - vm_compute. reflexivity.
  - apply (bool_decide_eq_true_1 _). vm_compute. reflexivity.
  - apply (bool_decide_eq_false_1 _). vm_compute. reflexivity.
Qed.

Lemma update_graph_unpadded_dates_witness :
  date feb09 = "2/9" ∧ date feb10 = "2/10"
  ∧ update_graph_series [feb09; feb10]
    = Ok (["2020-2-10"; "2020-2-9"], [42638; 40171], [21675; 23589],
          [1016; 908], [3996; 3281])
  ∧ Sorted calendar_le (map format_date ["2/9"; "2/10"])
  ∧ ¬ Sorted calendar_le ["2020-2-10"; "2020-2-9"].
Proof.
  assert (date feb09 = "2/9") as Ha by reflexivity.
  assert (date feb10 = "2/10") as Hb by reflexivity.
  split; [exact Ha|]. split; [exact Hb|].
  exact (update_graph_unpadded_dates feb09 feb10 Ha Hb).
Defined.

(** C2, where the code departs from the claim: on the empty payload the
    five names of line 184 cannot be bound and [update_graph] raises
    [ValueError]; it returns no sequences, empty or not. *)
Theorem update_graph_empty_payload (status : Z)
    (gv : list GlobalVars) :
  ¬ (400 ≤ status < 600) →
  update_graph_series [] = Raise ValueError
  ∧ update_graph
      (Some {| Requests.status_code := status;
               Requests.body := Some {| wuwei_ww_cn_day_counts := [];
                                        wuwei_ww_global_vars := gv |} |})
    = Raise ValueError.
Proof.
  intros Hstatus. split; [reflexivity|].
  unfold update_graph, Requests.fetch, Requests.raise_for_status; simpl.
  destruct (400 <=? status) eqn:E1, (status <? 600) eqn:E2; simpl; try done.
  lia.
Qed.

Lemma update_graph_empty_payload_witness :
  ¬ (400 ≤ 200 < 600)
  ∧ update_graph_series [] = Raise ValueError
  ∧ update_graph
      (Some {| Requests.status_code := 200;
               Requests.body := Some {| wuwei_ww_cn_day_counts := [];
                                        wuwei_ww_global_vars := [] |} |})
    = Raise ValueError.
Proof.
  assert (¬ (400 ≤ 200 < 600)) as H by lia.
  split; [exact H|]. apply (update_graph_empty_payload 200 [] H).
Defined.

(** ** update_city_map: the table *)

Lemma aligned_no_rows : aligned no_rows.
Proof. by repeat split. Qed.

Lemma append_row_aligned t r : aligned t → aligned (append_row t r).
Proof.
  destruct r as [[[[name c] s] cu] d]. unfold aligned; simpl.
  rewrite !length_app; simpl. lia.
Qed.

Lemma rows_of_append_row t r :
  aligned t → rows_of (append_row t r) = rows_of t ++ [r].
Proof.
  destruct r as [[[[name c] s] cu] d]. intros (? & ? & ? & ?).
  unfold rows_of; simpl. by apply zip5_snoc.
Qed.


Lemma columns_app_no_rows_l t : columns_app no_rows t = t.
Proof. by destruct t. Qed.





Lemma city_loop_rows (l : list City.t) t :
  aligned t →
  aligned (foldl (λ t city, append_row t (city_row city)) t l)
  ∧ rows_of (foldl (λ t city, append_row t (city_row city)) t l)
    = rows_of t ++ map city_row l.
Proof.
  revert t. induction l as [|city l IH]; intros t Ht; cbn [foldl map].
  - by rewrite app_nil_r.
  - destruct (IH (append_row t (city_row city))) as [Ha Hr];
      [by apply append_row_aligned|].
    split; [done|]. rewrite Hr, rows_of_append_row by done.
    by rewrite <-app_assoc.
Qed.


Lemma province_pass_aligned t p t' :
  aligned t → province_pass t p = Ok t' → aligned t'.
Proof.
  unfold province_pass. intros Ht. case_bool_decide.
  - intros [= <-]. by apply (append_row_aligned t (municipality_row p)).
  - destruct (cities_of p) as [l|e]; [|done].
    rewrite bind_Ok. intros [= <-]. by apply (city_loop_rows l t).
Qed.

Lemma province_loop_aligned data t t' :
  aligned t → province_loop t data = Ok t' → aligned t'.
Proof.
  revert t. induction data as [|p data IH]; intros t Ht; simpl.
  - by intros [= <-].
  - destruct (province_pass t p) as [t1|e] eqn:Hp; simpl; [|done].
    apply IH. by eapply province_pass_aligned.
Qed.








(** The rows that the loop adds are those of the entries it passes. *)
Lemma province_pass_contribution (t t' : columns) (p : Province.t) :
  aligned t → province_pass t p = Ok t' →
  rows_of t' = rows_of t ++ contribution p.
Proof.
  unfold province_pass, contribution, cities_of. intros Ht.
  case_bool_decide.
  - intros [= <-]. by apply (rows_of_append_row t (municipality_row p)).
  - destruct (Province.cities p) as [l|]; [|done].
    rewrite bind_Ok. intros [= <-]. by apply (city_loop_rows l t).
Qed.

Lemma province_loop_contributions (data : list Province.t) (t t' : columns) :
  aligned t → province_loop t data = Ok t' →
  rows_of t' = rows_of t ++ concat (map contribution data).
Proof.
  revert t. induction data as [|p data IH]; intros t Ht; cbn [province_loop].
  - intros [= <-]. by rewrite app_nil_r.
  - destruct (province_pass t p) as [t1|e] eqn:Hpass; [|done].
    rewrite bind_Ok. intros Hloop.
    rewrite (IH t1); [|by eapply province_pass_aligned|done].
    rewrite (province_pass_contribution t t1 p) by done.
    cbn [map concat]. by rewrite <-app_assoc.
Qed.

(** ** Intensity *)

Lemma map_fmap {A B} (f : A → B) (l : list A) : map f l = f <$> l.
Proof. reflexivity. Qed.

Lemma log1_add1 (c : Z) :
  0 ≤ c → Np.log1 (c + 1) = Np.Finite (ln (IZR c + 1)).
Proof.
  intros Hc. unfold Np.log1.
  destruct (0 <? c + 1) eqn:E; [|lia]. by rewrite plus_IZR.
Qed.

Lemma log1_add1_zero : Np.log1 (0 + 1) = Np.Finite 0.
Proof. rewrite log1_add1 by lia. by rewrite Rplus_0_l, ln_1. Qed.

(** An int64 below the largest one has its successor: no wrap-around. *)
Lemma wrap_int64_id (x : Z) : Np.in_int64 x → Np.wrap_int64 x = x.
Proof.
  unfold Np.in_int64, Np.wrap_int64. intros Hx.
  rewrite Z.mod_small; lia.
Qed.

Lemma wrap_int64_succ (c : Z) :
  - 2 ^ 63 ≤ c < 2 ^ 63 - 1 → Np.wrap_int64 (c + 1) = c + 1.
Proof. intros Hc. apply wrap_int64_id. unfold Np.in_int64. lia. Qed.

(** The largest int64 wraps around to the smallest. *)
Lemma wrap_int64_max : Np.wrap_int64 (2 ^ 63 - 1 + 1) = - 2 ^ 63.
Proof. reflexivity. Qed.

Lemma log_add1_lookup (xs : list Z) i :
  Np.log (Np.add1 xs) !! i
  = (λ c, Np.log1 (Np.wrap_int64 (c + 1))) <$> xs !! i.
Proof.
  unfold Np.log, Np.add1. rewrite !map_fmap, !list_lookup_fmap.
  by destruct (xs !! i).
Qed.

Lemma length_log_add1 (xs : list Z) :
  length (Np.log (Np.add1 xs)) = length xs.
Proof. unfold Np.log, Np.add1. by rewrite !length_map. Qed.

Lemma zip5_lookup_2 {A B C D E} (la : list A) (lb : list B) (lc : list C)
    (ld : list D) (le : list E) i a b c d e :
  zip5 la lb lc ld le !! i = Some (a, b, c, d, e) → lb !! i = Some b.
Proof.
  unfold zip5. intros H.
  apply lookup_zip_with_Some in H as (x1 & y1 & ? & H & _); simplify_eq.
  apply lookup_zip_with_Some in H as (x2 & y2 & ? & H & _); simplify_eq.
  apply lookup_zip_with_Some in H as (x3 & y3 & ? & H & _); simplify_eq.
  apply lookup_zip_with_Some in H as (x4 & y4 & ? & _ & H); by simplify_eq.
Qed.

(** What [province_trace] returns. *)
Lemma province_trace_eq (data : list Province.t) tr :
  province_trace data = Ok tr →
  Go.locations tr = map (λ r, r.1.1.1.1) (map province_tuple data)
  ∧ Go.z tr = Np.log (Np.add1 (map Province.confirmedCount data))
  ∧ Go.customdata tr = map province_tuple data.
Proof.
  unfold province_trace. rewrite <-(map_map province_tuple (λ r, r.1.1.1.2)).
  remember (map province_tuple data) as rows eqn:Hrows.
  destruct rows as [|r rows]; [done|]. rewrite Hrows.
  rewrite unpack5_nonempty by (by rewrite <-Hrows). rewrite bind_Ok.
  clear Hrows. remember (map province_tuple data) as rows' eqn:Hrows.
  intros [= <-]. cbn [Go.locations Go.z Go.customdata].
  by rewrite zip5_projections.
Qed.

(** What [update_city_map] returns and writes when it does not raise. *)
Lemma update_city_map_eq upstream fs tr fs' :
  update_city_map upstream fs = (Ok tr, fs') →
  ∃ res t,
    Requests.fetch upstream = Ok res
    ∧ province_loop no_rows (getAreaStat res) = Ok t
    ∧ aligned t
    ∧ Go.locations tr = cities t
    ∧ Go.z tr = Np.log (Np.add1 (confirmeds t))
    ∧ Go.customdata tr = rows_of t
    ∧ fs' = {| cities_data_csv := Some t |}.
Proof.
  unfold update_city_map.
  destruct (Requests.fetch upstream) as [res|e]; [|done]. rewrite bind_Ok.
  destruct (province_loop no_rows (getAreaStat res)) as [t|e] eqn:Hloop; [|done].
  intros [= <- <-]. exists res, t. repeat split; try done.
  all: by eapply province_loop_aligned, Hloop; apply aligned_no_rows.
Qed.

(** The two maps alike: the rows of the trace are those of the payload and
    each intensity is computed from the confirmed count of its row. *)
Lemma trace_intensities (tr : Go.Choroplethmapbox)
    (rows : list (string * Z * Z * Z * Z)) :
  (∃ data, province_trace data = Ok tr ∧ rows = map province_tuple data)
  ∨ (∃ upstream fs fs' res,
       update_city_map upstream fs = (Ok tr, fs')
       ∧ Requests.fetch upstream = Ok res
       ∧ rows = concat (map contribution (getAreaStat res))) →
  Go.customdata tr = rows
  ∧ length (Go.z tr) = length rows
  ∧ ∀ i r, rows !! i = Some r →
      Go.z tr !! i = Some (Np.log1 (Np.wrap_int64 (r.1.1.1.2 + 1))).
Proof.
  intros [(data & Hrun & ->) | (upstream & fs & fs' & res & Hrun & Hres & ->)].
  - apply province_trace_eq in Hrun as (Hloc & Hz & Hcd).
    rewrite Hz, Hcd. split; [done|]. split.
    { by rewrite length_log_add1, !length_map. }
    intros i r. rewrite log_add1_lookup, !map_fmap, !list_lookup_fmap.
    destruct (data !! i) as [p|]; simpl; [|done]. by intros [= <-].
  - apply update_city_map_eq in Hrun
      as (res' & t & Hres' & Hloop & Ht & _ & Hz & Hcd & _).
    assert (res' = res) as -> by congruence.
    assert (rows_of t = concat (map contribution (getAreaStat res))) as Hrows
      by exact (province_loop_contributions _ no_rows t aligned_no_rows Hloop).
    rewrite Hz, Hcd, <-Hrows. split; [done|]. split.
    { destruct Ht as (Hc & Hs & Hcu & Hd).
      rewrite length_log_add1. unfold rows_of. by rewrite length_zip5. }
    intros i [[[[n c] su] cu] d] Hi. rewrite log_add1_lookup.
    by rewrite (zip5_lookup_2 _ _ _ _ _ _ _ _ _ _ _ Hi).
Qed.

(** C5, as the code has it: in the province table and in the city table
    alike, the rows of the trace are those of the payload (one per province
    entry; one per municipality and one per city of any other entry), there
    is one intensity per row, and the intensity of a row is ln(confirmed + 1)
    for the confirmed count of that same row; it is 0 for a row with no
    confirmed case.  The confirmed counts are int64 values, which is how
    numpy holds the column, and the count of the row is non-negative and
    below the largest int64, whose successor wraps around; the float64 value
    is given by the real number it approximates. *)
Theorem intensity_is_log_confirmed (tr : Go.Choroplethmapbox)
    (rows : list (string * Z * Z * Z * Z)) :
  (∃ data, province_trace data = Ok tr ∧ rows = map province_tuple data)
  ∨ (∃ upstream fs fs' res,
       update_city_map upstream fs = (Ok tr, fs')
       ∧ Requests.fetch upstream = Ok res
       ∧ rows = concat (map contribution (getAreaStat res))) →
  Forall (λ r, Np.in_int64 r.1.1.1.2) rows →
  Go.customdata tr = rows
  ∧ length (Go.z tr) = length rows
  ∧ ∀ i name c s cu d,
      rows !! i = Some (name, c, s, cu, d) → 0 ≤ c < 2 ^ 63 - 1 →
      Go.z tr !! i = Some (Np.Finite (ln (IZR c + 1)))
      ∧ (c = 0 → Go.z tr !! i = Some (Np.Finite 0)).
Proof.
  intros Htr _.
  destruct (trace_intensities tr rows Htr) as (Hcd & Hlen & Hz).
  split; [done|]. split; [done|].
  intros i name c s cu d Hi Hc. rewrite (Hz i _ Hi). cbn [fst snd].
  rewrite wrap_int64_succ by lia. split.
  - by rewrite log1_add1 by lia.
  - intros ->. by rewrite log1_add1_zero.
Qed.

Lemma intensity_is_log_confirmed_witness :
  ((∃ data, province_trace data = Ok (hubei_trace 0)
            ∧ [("湖北", 0, 0, 0, 0)] = map province_tuple data)
   ∨ (∃ upstream fs fs' res,
        update_city_map upstream fs = (Ok (hubei_trace 0), fs')
        ∧ Requests.fetch upstream = Ok res
        ∧ [("湖北", 0, 0, 0, 0)]
          = concat (map contribution (getAreaStat res))))
  ∧ Forall (λ r, Np.in_int64 r.1.1.1.2) [("湖北", 0, 0, 0, 0)]
  ∧ Go.customdata (hubei_trace 0) = [("湖北", 0, 0, 0, 0)]
  ∧ length (Go.z (hubei_trace 0)) = 1%nat
  ∧ ∀ i name c s cu d,
      [("湖北", 0, 0, 0, 0)] !! i = Some (name, c, s, cu, d) →
      0 ≤ c < 2 ^ 63 - 1 →
      Go.z (hubei_trace 0) !! i = Some (Np.Finite (ln (IZR c + 1)))
      ∧ (c = 0 → Go.z (hubei_trace 0) !! i = Some (Np.Finite 0)).
Proof.
  assert ((∃ data, province_trace data = Ok (hubei_trace 0)
                   ∧ [("湖北", 0, 0, 0, 0)] = map province_tuple data)
          ∨ (∃ upstream fs fs' res,
               update_city_map upstream fs = (Ok (hubei_trace 0), fs')
               ∧ Requests.fetch upstream = Ok res
               ∧ [("湖北", 0, 0, 0, 0)]
                 = concat (map contribution (getAreaStat res)))) as H
    by (left; exists [hubei 0]; split; reflexivity).
  assert (Forall (λ r, Np.in_int64 r.1.1.1.2) [("湖北", 0, 0, 0, 0)]) as Hcol
    by (repeat constructor; unfold Np.in_int64; simpl; lia).
  split; [exact H|]. split; [exact Hcol|].
  exact (intensity_is_log_confirmed (hubei_trace 0) [("湖北", 0, 0, 0, 0)]
           H Hcol).
Defined.

(** C5 as stated fails at the largest int64: the sum wraps around to the
    smallest int64, and the intensity of the row is nan, not ln(2^63). *)
Lemma intensity_largest_int64 :
  ¬ ∃ tr,
      province_trace [hubei (2 ^ 63 - 1)] = Ok tr
      ∧ Go.customdata tr !! 0%nat = Some ("湖北", 2 ^ 63 - 1, 0, 0, 0)
      ∧ Go.z tr !! 0%nat = Some (Np.Finite (ln (IZR (2 ^ 63 - 1) + 1))).
Proof.
  intros (tr & Hrun & _ & Hz).
  apply province_trace_eq in Hrun as (_ & Hz' & _). rewrite Hz' in Hz.
  assert (Np.log (Np.add1 (map Province.confirmedCount [hubei (2 ^ 63 - 1)]))
          = [Np.NaN]) as E by (vm_compute; reflexivity).
  rewrite E in Hz. discriminate Hz.
Qed.

(** ** The join key of the province map *)

Lemma str_app_cons x (a b : string) : String x a +:+ b = String x (a +:+ b).
Proof. reflexivity. Qed.

Lemma str_app_nil_l (a : string) : "" +:+ a = a.
Proof. reflexivity. Qed.

Lemma str_app_assoc (a b c : string) : (a +:+ b) +:+ c = a +:+ (b +:+ c).
Proof.
  induction a as [|x a IH]; [done|]. by rewrite !str_app_cons, IH.
Qed.

Lemma str_app_nil_r (a : string) : a +:+ "" = a.
Proof. induction a as [|x a IH]; [done|]. by rewrite str_app_cons, IH. Qed.

Lemma str_app_eq_nil (a b : string) : a +:+ b = "" → a = "" ∧ b = "".
Proof. by destruct a. Qed.

Lemma str_length_app (s c : string) :
  String.length (s +:+ c) = (String.length s + String.length c)%nat.
Proof.
  induction s as [|x s IH]; [done|]. rewrite str_app_cons. simpl. by rewrite IH.
Qed.

Global Instance str_app_inj_r (c : string) : Inj (=) (=) (λ x, x +:+ c).
Proof.
  intros a. induction a as [|x a IH]; intros [|y b] H; simpl in H.
  - done.
  - apply (f_equal String.length) in H.
    rewrite str_app_nil_l, str_length_app in H. simpl in H. lia.
  - apply (f_equal String.length) in H.
    rewrite str_app_nil_l, str_length_app in H. simpl in H. lia.
  - rewrite !str_app_cons in H. injection H as -> H. f_equal. by apply IH.
Qed.

Lemma replicate_str_snoc n c : replicate_str (S n) c = replicate_str n c +:+ c.
Proof.
  induction n as [|n IH].
  - simpl. by rewrite str_app_nil_r.
  - change (replicate_str (S (S n)) c) with (c +:+ replicate_str (S n) c).
    rewrite IH at 1.
    change (replicate_str (S n) c) with (c +:+ replicate_str n c).
    by rewrite str_app_assoc.
Qed.

(** [rstrip] takes away a trailing run of [c] and leaves a string that does
    not end with [c]. *)
Lemma rstrip_spec (c s : string) :
  c ≠ "" →
  (∃ k, s = rstrip c s +:+ replicate_str k c) ∧ ¬ ends_with (rstrip c s) c.
Proof.
  intros Hc. induction s as [|a s [[k Hk] Hend]]; cbn [rstrip].
  - split; [by exists 0%nat|]. intros [p Hp]. symmetry in Hp.
    by apply str_app_eq_nil in Hp as [_ ?].
  - destruct (String.eqb_spec (String a (rstrip c s)) c) as [Heq|Hne].
    + split.
      * exists (S k). rewrite str_app_nil_l.
        change (replicate_str (S k) c) with (c +:+ replicate_str k c).
        rewrite <-Heq at 1. by rewrite str_app_cons, <-Hk.
      * intros [p Hp]. symmetry in Hp. by apply str_app_eq_nil in Hp as [_ ?].
    + split.
      * exists k. by rewrite str_app_cons, <-Hk.
      * intros [[|b p] Hp].
        -- by rewrite str_app_nil_l in Hp.
        -- rewrite str_app_cons in Hp. injection Hp as _ Hp.
           apply Hend. by exists p.
Qed.

(** A string that does not end with [c] is left alone. *)
Lemma rstrip_id (c s : string) : c ≠ "" → ¬ ends_with s c → rstrip c s = s.
Proof.
  intros Hc. induction s as [|a s IH]; cbn [rstrip]; [done|]. intros Hend.
  rewrite IH.
  - destruct (String.eqb_spec (String a s) c) as [Heq|Hne]; [|done].
    destruct Hend. exists "". by rewrite Heq.
  - intros [p Hp]. apply Hend. exists (String a p).
    by rewrite str_app_cons, Hp.
Qed.

(** One trailing [c] is taken away. *)
Lemma rstrip_one (c s : string) :
  c ≠ "" → ¬ ends_with s c → rstrip c (s +:+ c) = s.
Proof.
  intros Hc Hend.
  destruct (rstrip_spec c (s +:+ c) Hc) as [[k Hk] Hr].
  revert Hk Hr. generalize (rstrip c (s +:+ c)). intros r Hk Hr.
  destruct k as [|k].
  - simpl in Hk. rewrite str_app_nil_r in Hk. destruct Hr. exists s. by rewrite Hk.
  - rewrite replicate_str_snoc, <-str_app_assoc in Hk.
    apply (inj (λ x, x +:+ c)) in Hk.
    destruct k as [|k].
    + simpl in Hk. by rewrite str_app_nil_r in Hk.
    + destruct Hend. rewrite Hk, replicate_str_snoc, <-str_app_assoc. by eexists.
Qed.

Lemma str_app_eq_suffix (a b c c' : string) :
  a +:+ c = b +:+ c' → String.length c = String.length c' → c = c'.
Proof.
  revert b. induction a as [|x a IH]; intros [|y b] H Hlen.
  - done.
  - apply (f_equal String.length) in H.
    rewrite str_app_nil_l, str_length_app in H. simpl in H. lia.
  - apply (f_equal String.length) in H.
    rewrite str_app_nil_l, str_length_app in H. simpl in H. lia.
  - rewrite !str_app_cons in H. injection H as _ H. by eapply IH.
Qed.

Lemma not_ends_with_other (s c c' : string) :
  String.length c = String.length c' → c ≠ c' → ¬ ends_with (s +:+ c) c'.
Proof. intros Hlen Hne [p Hp]. by apply str_app_eq_suffix in Hp. Qed.

(** The key under which an entry is drawn on the province map. *)
Lemma join_key_spec (name : string) :
  let key := rstrip "市" (rstrip "省" name) in
  (∃ a b, name = key +:+ replicate_str a "市" +:+ replicate_str b "省"
          ∧ (a = 0%nat → ¬ ends_with key "省"))
  ∧ ¬ ends_with key "市".
Proof.
  intros key.
  destruct (rstrip_spec "省" name) as [[b Hb] Hsheng]; [done|].
  destruct (rstrip_spec "市" (rstrip "省" name)) as [[a Ha] Hshi]; [done|].
  fold key in Ha, Hshi. split; [|done]. exists a, b. split.
  - by rewrite <-str_app_assoc, <-Ha.
  - intros ->. simpl in Ha. rewrite str_app_nil_r in Ha. by rewrite <-Ha.
Qed.

Lemma join_key_one_suffix (base : string) :
  ¬ ends_with base "省" → ¬ ends_with base "市" →
  rstrip "市" (rstrip "省" (base +:+ "省")) = base
  ∧ rstrip "市" (rstrip "省" (base +:+ "市")) = base
  ∧ rstrip "市" (rstrip "省" base) = base.
Proof.
  intros Hsheng Hshi. repeat split.
  - rewrite rstrip_one by done. by apply rstrip_id.
  - rewrite (rstrip_id "省"); [by apply rstrip_one|done|].
    by apply not_ends_with_other.
  - rewrite (rstrip_id "省") by done. by apply rstrip_id.
Qed.

(** C6: the key of each entry of the province table is its display name
    without the trailing "省" and then without the trailing "市": what is
    removed is a run of "市" followed by a run of "省", the key does not end
    with "市" (nor with "省" when no "市" was removed), and a name made of a
    base and one suffix gives the base.  In particular "湖北省" gives the key
    "湖北", and a confirmed count of 1000 the intensity ln(1001). *)
Theorem province_join_key (data : list Province.t) (tr : Go.Choroplethmapbox) :
  province_trace data = Ok tr →
  length (Go.locations tr) = length data
  ∧ ∀ i p, data !! i = Some p →
      ∃ key a b,
        Go.locations tr !! i = Some key
        ∧ Province.provinceName p
          = key +:+ replicate_str a "市" +:+ replicate_str b "省"
        ∧ ¬ ends_with key "市"
        ∧ (a = 0%nat → ¬ ends_with key "省")
        ∧ (∀ base, ¬ ends_with base "省" → ¬ ends_with base "市" →
             Province.provinceName p = base +:+ "省"
             ∨ Province.provinceName p = base +:+ "市"
             ∨ Province.provinceName p = base →
             key = base)
        ∧ (Province.provinceName p = "湖北省" → key = "湖北")
        ∧ (Province.confirmedCount p = 1000 →
             Go.z tr !! i = Some (Np.Finite (ln 1001))).
Proof.
  intros (Hloc & Hz & _)%province_trace_eq. rewrite Hloc, Hz. split.
  { by rewrite !length_map. }
  intros i p Hp.
  destruct (join_key_spec (Province.provinceName p)) as [(a & b & Hname & Ha) Hshi].
  exists (rstrip "市" (rstrip "省" (Province.provinceName p))), a, b.
  split.
  { rewrite map_map, map_fmap, list_lookup_fmap. by rewrite Hp. }
  do 3 (split; [done|]). split; [|split].
  - intros base Hb1 Hb2 Hcase.
    destruct (join_key_one_suffix base Hb1 Hb2) as (H1 & H2 & H3).
    by destruct Hcase as [-> | [-> | ->]].
  - by intros ->.
  - intros Hc. rewrite log_add1_lookup, map_fmap, list_lookup_fmap, Hp; simpl.
    rewrite Hc, wrap_int64_succ, log1_add1 by lia. do 3 f_equal.
    by rewrite <-(plus_IZR 1000 1).
Qed.

Lemma province_join_key_witness :
  province_trace [hubei 1000] = Ok (hubei_trace 1000)
  ∧ length (Go.locations (hubei_trace 1000)) = 1%nat
  ∧ ∀ i p, [hubei 1000] !! i = Some p →
      ∃ key a b,
        Go.locations (hubei_trace 1000) !! i = Some key
        ∧ Province.provinceName p
          = key +:+ replicate_str a "市" +:+ replicate_str b "省"
        ∧ ¬ ends_with key "市"
        ∧ (a = 0%nat → ¬ ends_with key "省")
        ∧ (∀ base, ¬ ends_with base "省" → ¬ ends_with base "市" →
             Province.provinceName p = base +:+ "省"
             ∨ Province.provinceName p = base +:+ "市"
             ∨ Province.provinceName p = base →
             key = base)
        ∧ (Province.provinceName p = "湖北省" → key = "湖北")
        ∧ (Province.confirmedCount p = 1000 →
             Go.z (hubei_trace 1000) !! i = Some (Np.Finite (ln 1001))).
Proof.
  split; [reflexivity|].
  apply (province_join_key [hubei 1000] (hubei_trace 1000)). reflexivity.
Defined.

(** ** A failed fetch *)

Lemma fetch_failed {A} (upstream : option (Requests.Response A)) :
  upstream_failed upstream →
  Requests.fetch upstream
  = Raise (match upstream with Some _ => HTTPError | None => ConnectionError end).
Proof.
  destruct upstream as [r|]; [|done]. simpl. intros Hstatus.
  unfold Requests.fetch, Requests.get, Requests.raise_for_status.
  rewrite bind_Ok.
  destruct (400 <=? Requests.status_code r) eqn:E1; [|lia].
  destruct (Requests.status_code r <? 600) eqn:E2; [|lia]. done.
Qed.

Lemma fetch_reply {A} (status : Z) (a : A) :
  ¬ (400 ≤ status < 600) → Requests.fetch (reply status a) = Ok a.
Proof.
  intros Hstatus.
  unfold Requests.fetch, reply, Requests.get, Requests.raise_for_status.
  rewrite bind_Ok. simpl.
  by destruct (400 <=? status) eqn:E1, (status <? 600) eqn:E2; try lia.
Qed.

(** C7, as the code has it: when the fetch of the city-map refresh fails,
    the callback raises the exception of [requests] ([HTTPError] for a 4xx or
    5xx answer such as 500, [ConnectionError] when the upstream cannot be
    reached), the files are as they were, so [cities_data.csv] is not
    rewritten, and the figure on the page is the one that was there. *)
Theorem city_map_upstream_failure (upstream : option (Requests.Response DXY))
    (d : dashboard) :
  upstream_failed upstream →
  update_city_map upstream (disk d)
  = (Raise (match upstream with Some _ => HTTPError | None => ConnectionError end),
     disk d)
  ∧ cities_data_csv (update_city_map upstream (disk d)).2
    = cities_data_csv (disk d)
  ∧ city_map_tick upstream d = d.
Proof.
  intros Hfail.
  assert (update_city_map upstream (disk d)
          = (Raise (match upstream with
                    | Some _ => HTTPError | None => ConnectionError end),
             disk d)) as Hrun.
  { unfold update_city_map. by rewrite (fetch_failed upstream Hfail). }
  split; [done|]. split; [by rewrite Hrun|].
  unfold city_map_tick. rewrite Hrun. by destruct d.
Qed.

Lemma city_map_upstream_failure_witness :
  upstream_failed (Some {| Requests.status_code := 500;
                           Requests.body := @None DXY |})
  ∧ update_city_map
      (Some {| Requests.status_code := 500; Requests.body := None |})
      (disk published)
    = (Raise HTTPError, disk published)
  ∧ cities_data_csv
      (update_city_map
         (Some {| Requests.status_code := 500; Requests.body := None |})
         (disk published)).2
    = cities_data_csv (disk published)
  ∧ city_map_tick
      (Some {| Requests.status_code := 500; Requests.body := None |})
      published
    = published.
Proof.
  assert (upstream_failed (Some {| Requests.status_code := 500;
                                   Requests.body := @None DXY |})) as H
    by (simpl; lia).
  split; [exact H|].
  apply (city_map_upstream_failure
           (Some {| Requests.status_code := 500; Requests.body := None |})
           published H).
Defined.

(** C7 as stated fails: on an HTTP 500 the exception raised is not one named
    [UpstreamUnavailable]. *)
Lemma city_map_http_500_exception :
  ¬ ∃ e,
      (update_city_map
         (Some {| Requests.status_code := 500; Requests.body := None |})
         (disk published)).1 = Raise e
      ∧ exn_name e = "UpstreamUnavailable".
Proof.
  intros (e & Hrun & Hname). vm_compute in Hrun.
  injection Hrun as <-. vm_compute in Hname. discriminate Hname.
Qed.

(** ** Decimal text *)

Lemma digit_value_digit_char (d : Z) :
  0 ≤ d < 10 → digit_value (digit_char d) = Some d.
Proof.
  intros Hd.
  assert (d = 0 ∨ d = 1 ∨ d = 2 ∨ d = 3 ∨ d = 4 ∨ d = 5 ∨ d = 6 ∨ d = 7
          ∨ d = 8 ∨ d = 9) as Hcases by lia.
  by repeat destruct Hcases as [->|Hcases]; [..|subst d].
Qed.

Lemma digits_value_go_app (v : Z) (s1 s2 : string) :
  digits_value_go v (s1 +:+ s2)
  = digits_value_go v s1 ≫= λ v', digits_value_go v' s2.
Proof.
  revert v. induction s1 as [|c s1 IH]; intros v; [done|].
  rewrite str_app_cons. cbn [digits_value_go].
  destruct (digit_value c); [apply IH|done].
Qed.

Lemma pow10_succ (k : nat) : 10 ^ Z.of_nat (S k) = 10 * 10 ^ Z.of_nat k.
Proof. rewrite Nat2Z.inj_succ. apply Z.pow_succ_r. lia. Qed.

Lemma pow10_pos (k : nat) : 0 < 10 ^ Z.of_nat k.
Proof. apply Z.pow_pos_nonneg; lia. Qed.

(** The digits that [decimal_go] puts in front of [acc]: they write [n],
    without a zero in front unless [n] is a single digit. *)
Lemma decimal_go_spec (fuel : nat) (n : Z) (acc : string) :
  0 ≤ n < 2 ^ Z.of_nat (S fuel) →
  ∃ ds k,
    decimal_go (S fuel) n acc = ds +:+ acc
    ∧ String.length ds = S k
    ∧ (∀ v, digits_value_go v ds = Some (v * 10 ^ Z.of_nat (S k) + n))
    ∧ n < 10 ^ Z.of_nat (S k)
    ∧ (10 ^ Z.of_nat k ≤ n ∨ k = 0%nat).
Proof.
  revert n acc. induction fuel as [|fuel IH]; intros n acc Hn.
  - exists (String (digit_char (n mod 10)) ""), 0%nat.
    change (2 ^ Z.of_nat 1) with 2 in Hn.
    cbn [decimal_go]. destruct (n <? 10) eqn:E; [|lia].
    rewrite Z.mod_small by lia. cbn [digits_value_go].
    rewrite digit_value_digit_char by lia.
    change (10 ^ Z.of_nat 1) with 10.
    split; [done|]. split; [done|]. split; [intros v; f_equal; lia|].
    split; [lia | by right].
  - cbn [decimal_go]. destruct (n <? 10) eqn:E.
    + exists (String (digit_char (n mod 10)) ""), 0%nat.
      rewrite Z.mod_small by lia. cbn [digits_value_go].
      rewrite digit_value_digit_char by lia.
      change (10 ^ Z.of_nat 1) with 10.
      split; [done|]. split; [done|]. split; [intros v; f_equal; lia|].
      split; [lia | by right].
    + assert (0 ≤ n / 10 < 2 ^ Z.of_nat (S fuel)) as Hdiv.
      { rewrite (Nat2Z.inj_succ (S fuel)), Z.pow_succ_r in Hn by lia.
        split; [apply Z.div_pos; lia|].
        apply Z.div_lt_upper_bound; lia. }
      destruct (IH (n / 10) (String (digit_char (n mod 10)) acc) Hdiv)
        as (ds & k & Hgo & Hlen & Hval & Hup & Hlow).
      exists (ds +:+ String (digit_char (n mod 10)) ""), (S k).
      pose proof (Z.mod_pos_bound n 10 ltac:(lia)) as Hmod.
      pose proof (Z.div_mod n 10 ltac:(lia)) as Hdm.
      pose proof (pow10_pos k) as Hpos.
      rewrite pow10_succ in Hup.
      repeat split.
      * change (decimal_go (S fuel) (n / 10) (String (digit_char (n mod 10)) acc)
                = (ds +:+ String (digit_char (n mod 10)) "") +:+ acc).
        by rewrite Hgo, str_app_assoc.
      * rewrite str_length_app, Hlen. simpl. lia.
      * intros v. rewrite digits_value_go_app, Hval.
        cbn [mbind option_bind digits_value_go].
        rewrite digit_value_digit_char by lia. f_equal.
        rewrite (pow10_succ (S k)). lia.
      * rewrite (pow10_succ (S k)), pow10_succ. lia.
      * left. rewrite pow10_succ.
        destruct Hlow as [Hlow| ->]; [lia|].
        change (10 ^ Z.of_nat 0) with 1. lia.
Qed.

Lemma decimal_spec (n : Z) :
  0 ≤ n →
  ∃ k,
    String.length (decimal n) = S k
    ∧ digits_value (decimal n) = Some n
    ∧ n < 10 ^ Z.of_nat (S k)
    ∧ (10 ^ Z.of_nat k ≤ n ∨ k = 0%nat).
Proof.
  intros Hn. unfold decimal.
  destruct (decimal_go_spec (Z.to_nat (Z.log2 n)) n "")
    as (ds & k & Hgo & Hlen & Hval & Hup & Hlow).
  { split; [done|]. rewrite Nat2Z.inj_succ, Z2Nat.id by apply Z.log2_nonneg.
    destruct (decide (n = 0)) as [->|]; [done|]. apply Z.log2_spec. lia. }
  rewrite Hgo, str_app_nil_r. exists k. repeat split; try done.
  unfold digits_value. destruct ds; [done|]. rewrite Hval. f_equal; lia.
Qed.

Lemma length_replicate_str (k : nat) (c : string) :
  String.length (replicate_str k c) = (k * String.length c)%nat.
Proof.
  induction k as [|k IH]; [done|]. cbn [replicate_str].
  rewrite str_length_app, IH. lia.
Qed.

Lemma digits_value_go_zeros (k : nat) (s : string) :
  digits_value_go 0 (replicate_str k "0" +:+ s) = digits_value_go 0 s.
Proof.
  induction k as [|k IH]; [done|]. cbn [replicate_str].
  by rewrite str_app_assoc.
Qed.

(** [format(n, "0wd")] for a count: see [zero_padded]. *)
Lemma format_0d_spec (w : nat) (n : Z) :
  (0 < w)%nat → 0 ≤ n → zero_padded w n (format_0d w n).
Proof.
  intros Hw Hn. unfold format_0d. destruct (n <? 0) eqn:E; [lia|]. clear E.
  destruct (decimal_spec n Hn) as (k & Hlen & Hval & Hup & Hlow).
  unfold zfill, zero_padded.
  assert (String.length (replicate_str (w - String.length (decimal n)) "0"
                         +:+ decimal n) = Nat.max w (S k)) as Hmax.
  { rewrite str_length_app, length_replicate_str, Hlen. simpl. clear. lia. }
  rewrite Hmax. split; [|split; [lia|]].
  - unfold digits_value in *.
    destruct (replicate_str _ _ +:+ decimal n) eqn:Hs.
    { simpl in Hmax. clear -Hmax. lia. }
    rewrite <-Hs, digits_value_go_zeros. by destruct (decimal n).
  - split; [split|].
    + intros Hfit.
      assert (10 ^ Z.of_nat (S k) ≤ 10 ^ Z.of_nat w)
        by (apply Z.pow_le_mono_r; lia).
      lia.
    + intros Hlt. destruct Hlow as [Hlow| ->]; [|lia].
      destruct (decide (w ≤ k)%nat) as [Hwk|]; [|lia].
      assert (10 ^ Z.of_nat w ≤ 10 ^ Z.of_nat k)
        by (apply Z.pow_le_mono_r; lia).
      lia.
    + intros Hlong. destruct Hlow as [Hlow| ->]; [|lia].
      replace (Z.of_nat (w `max` S k) - 1) with (Z.of_nat k) by lia. done.
Qed.

(** A count of more than [w] digits is written as [str] writes it. *)
Lemma format_0d_long (w : nat) (n : Z) :
  10 ^ Z.of_nat w ≤ n → format_0d w n = decimal n.
Proof.
  intros Hn. pose proof (pow10_pos w) as Hpos.
  unfold format_0d. destruct (n <? 0) eqn:E; [lia|]. clear E.
  destruct (decimal_spec n ltac:(lia)) as (k & Hlen & _ & Hup & _).
  assert (w < S k)%nat as Hw.
  { destruct (decide (w < S k)%nat) as [|Hge]; [done|].
    assert (10 ^ Z.of_nat (S k) ≤ 10 ^ Z.of_nat w)
      by (apply Z.pow_le_mono_r; lia).
    lia. }
  unfold zfill. rewrite Hlen.
  replace (w - S k)%nat with 0%nat by lia. reflexivity.
Qed.

Lemma digit_value_bounds (c : ascii) (d : Z) :
  digit_value c = Some d → 0 ≤ d ≤ 9.
Proof.
  unfold digit_value. cbv zeta.
  destruct (_ && _) eqn:E; [|done]. intros [= <-].
  apply andb_true_iff in E as [?%Z.leb_le ?%Z.leb_le]. lia.
Qed.

Lemma digit_value_inj (c1 c2 : ascii) (d : Z) :
  digit_value c1 = Some d → digit_value c2 = Some d → c1 = c2.
Proof.
  unfold digit_value. cbv zeta.
  destruct (_ && _); [|done]. destruct (_ && _); [|done].
  intros [= H1] [= H2].
  assert (nat_of_ascii c1 = nat_of_ascii c2) as E by lia.
  rewrite <-(ascii_nat_embedding c1), <-(ascii_nat_embedding c2).
  by rewrite E.
Qed.

(** The value of a string of digits lies between the digits read so far
    followed by zeros and followed by nines. *)
Lemma digits_value_go_bounds (s : string) (a v : Z) :
  digits_value_go a s = Some v →
  a * 10 ^ Z.of_nat (String.length s) ≤ v
  < (a + 1) * 10 ^ Z.of_nat (String.length s).
Proof.
  revert a. induction s as [|c s IH]; intros a; cbn [digits_value_go].
  - intros [= <-]. change (10 ^ Z.of_nat (String.length "")) with 1. lia.
  - destruct (digit_value c) as [d|] eqn:Hd; [|done].
    cbn [mbind option_bind]. intros Hv%IH.
    apply digit_value_bounds in Hd.
    change (String.length (String c s)) with (S (String.length s)).
    rewrite pow10_succ. pose proof (pow10_pos (String.length s)) as Hpos.
    nia.
Qed.

Lemma digits_value_go_inj (s1 s2 : string) (a v : Z) :
  String.length s1 = String.length s2 →
  digits_value_go a s1 = Some v → digits_value_go a s2 = Some v → s1 = s2.
Proof.
  revert s2 a. induction s1 as [|c1 s1 IH]; intros [|c2 s2] a; try done.
  intros [= Hlen]. cbn [digits_value_go].
  destruct (digit_value c1) as [d1|] eqn:Hd1; [|done].
  destruct (digit_value c2) as [d2|] eqn:Hd2; [|done].
  cbn [mbind option_bind]. intros H1 H2.
  pose proof (digits_value_go_bounds _ _ _ H1) as B1.
  pose proof (digits_value_go_bounds _ _ _ H2) as B2.
  rewrite <-Hlen in B2. pose proof (pow10_pos (String.length s1)) as Hpos.
  assert (d1 = d2) as -> by nia.
  f_equal.
  - apply digit_value_inj with d2; done.
  - by apply (IH s2 (10 * a + d2)).
Qed.

(** The upper bound of a string of digits. *)
Lemma digits_value_lt (s : string) (n : Z) :
  digits_value s = Some n → 0 ≤ n < 10 ^ Z.of_nat (String.length s).
Proof.
  unfold digits_value. destruct s as [|c s]; [done|].
  intros H%digits_value_go_bounds. lia.
Qed.

(** There is one way to write a count with zeros up to a width. *)
Lemma zero_padded_unique (w : nat) (n : Z) (s1 s2 : string) :
  zero_padded w n s1 → zero_padded w n s2 → s1 = s2.
Proof.
  intros (Hv1 & Hw1 & Hfit1 & Hlong1) (Hv2 & Hw2 & Hfit2 & Hlong2).
  pose proof (digits_value_lt _ _ Hv1) as Hup1.
  pose proof (digits_value_lt _ _ Hv2) as Hup2.
  assert (String.length s1 = String.length s2) as Hlen.
  { destruct (decide (n < 10 ^ Z.of_nat w)) as [Hn|Hn].
    - by rewrite (proj2 Hfit1 Hn), (proj2 Hfit2 Hn).
    - assert (w < String.length s1)%nat as H1.
      { destruct (decide (String.length s1 = w)) as [E|]; [|lia].
        by apply Hfit1 in E. }
      assert (w < String.length s2)%nat as H2.
      { destruct (decide (String.length s2 = w)) as [E|]; [|lia].
        by apply Hfit2 in E. }
      specialize (Hlong1 H1). specialize (Hlong2 H2).
      destruct (decide (String.length s1 = String.length s2)) as [|Hne];
        [done|exfalso].
      destruct (decide (String.length s1 < String.length s2)%nat).
      + assert (10 ^ Z.of_nat (String.length s1)
                ≤ 10 ^ (Z.of_nat (String.length s2) - 1))
          by (apply Z.pow_le_mono_r; lia).
        lia.
      + assert (10 ^ Z.of_nat (String.length s2)
                ≤ 10 ^ (Z.of_nat (String.length s1) - 1))
          by (apply Z.pow_le_mono_r; lia).
        lia. }
  unfold digits_value in Hv1, Hv2.
  destruct s1 as [|c1 s1]; [done|]. destruct s2 as [|c2 s2]; [done|].
  by apply (digits_value_go_inj _ _ 0 n).
Qed.

Lemma zero_padded_five_digits (n : Z) (s : string) :
  zero_padded 5 n s → (five_digits s ↔ n < 100000).
Proof.
  intros (Hval & _ & Hlen & _). unfold five_digits.
  change (10 ^ Z.of_nat 5) with 100000 in Hlen.
  rewrite Hval. split; [intros [? _]; by apply Hlen|].
  intros ?%Hlen. split; [done|eauto].
Qed.

(** ** Dates written on two digits *)

Lemma digit_char_cases (P : Z → Prop) :
  P 0 → P 1 → P 2 → P 3 → P 4 → P 5 → P 6 → P 7 → P 8 → P 9 →
  ∀ d, 0 ≤ d < 10 → P d.
Proof.
  intros H0 H1 H2 H3 H4 H5 H6 H7 H8 H9 d Hd.
  assert (d = 0 ∨ d = 1 ∨ d = 2 ∨ d = 3 ∨ d = 4 ∨ d = 5 ∨ d = 6 ∨ d = 7
          ∨ d = 8 ∨ d = 9) as Hcases by lia.
  by repeat destruct Hcases as [->|Hcases]; [..|subst d].
Qed.

Lemma digit_char_not_sep (sep : ascii) (d : Z) :
  sep = "/"%char ∨ sep = "-"%char → 0 ≤ d < 10 →
  Ascii.eqb (digit_char d) sep = false.
Proof.
  intros [-> | ->]; revert d; by apply digit_char_cases.
Qed.

Lemma digit_char_compare (d e : Z) :
  0 ≤ d < 10 → 0 ≤ e < 10 →
  Ascii.compare (digit_char d) (digit_char e) = (d ?= e).
Proof.
  intros Hd. revert e. revert d Hd.
  apply (digit_char_cases (λ d, ∀ e, 0 ≤ e < 10 → _ = (d ?= e)));
    by apply digit_char_cases.
Qed.

Lemma format_date_padded (m1 m2 d1 d2 : Z) :
  0 ≤ m1 < 10 → 0 ≤ m2 < 10 → 0 ≤ d1 < 10 → 0 ≤ d2 < 10 →
  let c := digit_char in
  format_date (String (c m1) (String (c m2) (String "/"
                 (String (c d1) (String (c d2) "")))))
  = String "2" (String "0" (String "2" (String "0" (String "-"
      (String (c m1) (String (c m2) (String "-"
         (String (c d1) (String (c d2) ""))))))))).
Proof.
  intros Hm1 Hm2 Hd1 Hd2 c. unfold format_date. cbn [split]. subst c.
  rewrite !(digit_char_not_sep "/") by auto. reflexivity.
Qed.

Lemma calendar_key_padded (m1 m2 d1 d2 : Z) :
  0 ≤ m1 < 10 → 0 ≤ m2 < 10 → 0 ≤ d1 < 10 → 0 ≤ d2 < 10 →
  let c := digit_char in
  calendar_key
    (String "2" (String "0" (String "2" (String "0" (String "-"
      (String (c m1) (String (c m2) (String "-"
         (String (c d1) (String (c d2) ""))))))))))
  = Some (2020, 10 * m1 + m2, 10 * d1 + d2).
Proof.
  intros Hm1 Hm2 Hd1 Hd2 c. unfold calendar_key. cbn [split Ascii.eqb Bool.eqb].
  subst c. rewrite !(digit_char_not_sep "-") by auto.
  cbn [split Ascii.eqb Bool.eqb]. unfold digits_value. cbn [digits_value_go].
  rewrite !digit_value_digit_char by done.
  change (digit_value "2") with (Some 2).
  change (digit_value "0") with (Some 0).
  cbn [mbind option_bind].
  replace (10 * (10 * 0 + m1) + m2) with (10 * m1 + m2) by lia.
  replace (10 * (10 * 0 + d1) + d2) with (10 * d1 + d2) by lia.
  reflexivity.
Qed.

(** On dates written on two digits the order of the strings is the order
    of the calendar. *)
Lemma padded_dates_calendar_le (a b : string) :
  padded_date a → padded_date b →
  String.le (format_date a) (format_date b) →
  calendar_le (format_date a) (format_date b).
Proof.
  intros (m1 & m2 & d1 & d2 & (Hm1 & Hm2 & Hd1 & Hd2) & ->)
         (n1 & n2 & e1 & e2 & (Hn1 & Hn2 & He1 & He2) & ->).
  rewrite !format_date_padded by done.
  intros Hle%string_le_compare. unfold calendar_le.
  rewrite !calendar_key_padded by done.
  revert Hle. unfold le_of, prod_compare, lex. cbn [String.compare fst snd].
  change (Ascii.compare "2" "2") with Eq.
  change (Ascii.compare "0" "0") with Eq.
  change (Ascii.compare "-" "-") with Eq.
  cbv iota. rewrite !digit_char_compare by done.
  change (2020 ?= 2020) with Eq. cbv iota.
  repeat match goal with
         | |- context [?x ?= ?y] => destruct (Z.compare_spec x y)
         end; try done; lia.
Qed.

Lemma Sorted_impl_Forall {A} (R R' : relation A) (P : A → Prop) (l : list A) :
  (∀ x y, P x → P y → R x y → R' x y) →
  Forall P l → Sorted R l → Sorted R' l.
Proof.
  intros Himpl HP Hsorted. induction Hsorted as [|x l Hl IH Hhd].
  - constructor.
  - apply Forall_cons in HP as [Hx HP]. constructor; [by apply IH|].
    destruct Hhd as [|y l' Hxy]; constructor.
    apply Forall_cons in HP as [Hy _]. by apply Himpl.
Qed.

(** When every date of the payload is written on two digits, the dates that
    [update_graph] returns are in calendar order. *)
Lemma update_graph_series_padded (data : list DayCount) :
  data ≠ [] →
  Forall (λ i, padded_date (date i)) data →
  ∃ dates confirmeds suspecteds deads cureds,
    update_graph_series data = Ok (dates, confirmeds, suspecteds, deads, cureds)
    ∧ Sorted calendar_le dates.
Proof.
  intros Hdata Hpadded. do 5 eexists.
  split; [by apply update_graph_series_eq|].
  set (norm := λ i, (format_date (date i), confirm i, suspect i, dead i, heal i)).
  set (rows := sorted (map norm data)).
  assert (rows ≡ₚ map norm data) as Hp
    by apply (merge_sort_Permutation tuple_le).
  apply (Sorted_impl_Forall String.le calendar_le
           (λ d, ∃ a, padded_date a ∧ d = format_date a)).
  - intros x y (a & Ha & ->) (b & Hb & ->). by apply padded_dates_calendar_le.
  - rewrite map_fmap. apply Forall_fmap. rewrite Hp.
    rewrite map_fmap. apply Forall_fmap.
    eapply Forall_impl; [exact Hpadded|].
    intros i Hi. by exists (date i).
  - apply (Sorted_fmap (λ r : string * Z * Z * Z * Z, r.1.1.1.1)
             tuple_le String.le).
    + intros a b. apply tuple_le_date.
    + apply (Sorted_merge_sort tuple_le).
Qed.

(** ** update_counts *)

(** C8, as the code has it: each of the four totals is written in decimal
    with zeros in front up to a width of at least five characters; a count
    below 100000 gives exactly five digits, and a larger one is written in
    full: the string is the decimal representation of the count, [str] of it,
    which has more than five digits and no zero in front. *)
Theorem counts_zero_padded (now : datetime) (res : QQ)
    (text confirmed suspected dead cured : string) :
  counts_of now res = Ok (text, confirmed, suspected, dead, cured) →
  ∃ g,
    wuwei_ww_global_vars res !! 0%nat = Some g
    ∧ (0 ≤ confirmCount g →
         zero_padded 5 (confirmCount g) confirmed
         ∧ (five_digits confirmed ↔ confirmCount g < 100000)
         ∧ (100000 ≤ confirmCount g → confirmed = decimal (confirmCount g)))
    ∧ (0 ≤ suspectCount g →
         zero_padded 5 (suspectCount g) suspected
         ∧ (five_digits suspected ↔ suspectCount g < 100000)
         ∧ (100000 ≤ suspectCount g → suspected = decimal (suspectCount g)))
    ∧ (0 ≤ deadCount g →
         zero_padded 5 (deadCount g) dead
         ∧ (five_digits dead ↔ deadCount g < 100000)
         ∧ (100000 ≤ deadCount g → dead = decimal (deadCount g)))
    ∧ (0 ≤ cure g →
         zero_padded 5 (cure g) cured
         ∧ (five_digits cured ↔ cure g < 100000)
         ∧ (100000 ≤ cure g → cured = decimal (cure g))).
Proof.
  unfold counts_of, first.
  destruct (wuwei_ww_global_vars res !! 0%nat) as [g|]; [|done].
  rewrite !fmap_Ok, !bind_Ok. intros [= _ <- <- <- <-].
  exists g. split; [done|].
  assert (∀ n, 0 ≤ n →
            zero_padded 5 n (format_0d 5 n)
            ∧ (five_digits (format_0d 5 n) ↔ n < 100000)
            ∧ (100000 ≤ n → format_0d 5 n = decimal n)) as Hfmt.
  { intros n Hn. assert (zero_padded 5 n (format_0d 5 n)) as Hpad
      by (apply format_0d_spec; [lia|done]).
    split; [done|]. split; [by apply zero_padded_five_digits|].
    intros Hbig. by apply (format_0d_long 5 n). }
  split; [apply Hfmt|]. split; [apply Hfmt|]. split; apply Hfmt.
Qed.

Lemma counts_zero_padded_witness :
  counts_of noon {| wuwei_ww_cn_day_counts := [];
                    wuwei_ww_global_vars := [totals 118210] |}
  = Ok ("更新时间：2020-02-01 12:00:00", "118210", "15238", "00259", "00243")
  ∧ ∃ g,
      [totals 118210] !! 0%nat = Some g
      ∧ (0 ≤ confirmCount g →
           zero_padded 5 (confirmCount g) "118210"
           ∧ (five_digits "118210" ↔ confirmCount g < 100000)
           ∧ (100000 ≤ confirmCount g → "118210" = decimal (confirmCount g)))
      ∧ (0 ≤ suspectCount g →
           zero_padded 5 (suspectCount g) "15238"
           ∧ (five_digits "15238" ↔ suspectCount g < 100000)
           ∧ (100000 ≤ suspectCount g → "15238" = decimal (suspectCount g)))
      ∧ (0 ≤ deadCount g →
           zero_padded 5 (deadCount g) "00259"
           ∧ (five_digits "00259" ↔ deadCount g < 100000)
           ∧ (100000 ≤ deadCount g → "00259" = decimal (deadCount g)))
      ∧ (0 ≤ cure g →
           zero_padded 5 (cure g) "00243"
           ∧ (five_digits "00243" ↔ cure g < 100000)
           ∧ (100000 ≤ cure g → "00243" = decimal (cure g))).
Proof.
  split; [reflexivity|].
  apply (counts_zero_padded noon
           {| wuwei_ww_cn_day_counts := [];
              wuwei_ww_global_vars := [totals 118210] |}
           "更新时间：2020-02-01 12:00:00").
  reflexivity.
Defined.

(** A total of six digits has one zero-padded form, without a zero in
    front. *)
Example zero_padded_no_extra_zeros :
  zero_padded 5 100000 "100000" ∧ ¬ zero_padded 5 100000 "000100000".
Proof.
  split.
  - exact (format_0d_spec 5 100000 ltac:(lia) ltac:(lia)).
  - intros (_ & _ & _ & Hlong).
    assert (10 ^ (Z.of_nat (String.length "000100000") - 1) ≤ 100000) as H
      by (apply Hlong; simpl; lia).
    vm_compute in H. by apply H.
Qed.

(** C8 as stated fails: a total of 100000 is written with six digits. *)
Lemma counts_six_digits :
  ¬ ∃ text confirmed suspected dead cured,
      counts_of noon {| wuwei_ww_cn_day_counts := [];
                        wuwei_ww_global_vars := [totals 100000] |}
      = Ok (text, confirmed, suspected, dead, cured)
      ∧ five_digits confirmed ∧ five_digits suspected
      ∧ five_digits dead ∧ five_digits cured.
Proof.
  intros (text & c & s & d & h & Hrun & [Hlen _] & _).
  vm_compute in Hrun. injection Hrun as _ <- _ _ _.
  vm_compute in Hlen. discriminate Hlen.
Qed.

(** C9, as the code has it: with an empty global-variables array the
    callback raises [IndexError] at the first subscript, so it returns no
    totals at all. *)
Theorem counts_empty_global_vars (now : datetime) (status : Z) (res : QQ) :
  wuwei_ww_global_vars res = [] →
  ¬ (400 ≤ status < 600) →
  counts_of now res = Raise IndexError
  ∧ update_counts now (reply status res) = Raise IndexError.
Proof.
  intros Hempty Hstatus.
  assert (counts_of now res = Raise IndexError) as Hcounts.
  { unfold counts_of. by rewrite Hempty. }
  split; [done|]. unfold update_counts.
  by rewrite fetch_reply, bind_Ok.
Qed.

Lemma counts_empty_global_vars_witness :
  ¬ (400 ≤ 200 < 600)
  ∧ counts_of noon {| wuwei_ww_cn_day_counts := [jan23];
                      wuwei_ww_global_vars := [] |}
    = Raise IndexError
  ∧ update_counts noon
      (reply 200 {| wuwei_ww_cn_day_counts := [jan23];
                    wuwei_ww_global_vars := [] |})
    = Raise IndexError.
Proof.
  assert (¬ (400 ≤ 200 < 600)) as H by lia.
  split; [exact H|].
  apply (counts_empty_global_vars noon 200
           {| wuwei_ww_cn_day_counts := [jan23]; wuwei_ww_global_vars := [] |}
           eq_refl H).
Defined.

(** C9 as stated fails: the exception raised on an empty global-variables
    array is not one named [MalformedResponse]. *)
Lemma counts_empty_global_vars_exception :
  ¬ ∃ e,
      update_counts noon
        (reply 200 {| wuwei_ww_cn_day_counts := [];
                      wuwei_ww_global_vars := [] |})
      = Raise e
      ∧ exn_name e = "MalformedResponse".
Proof.
  intros (e & Hrun & Hname). vm_compute in Hrun.
  injection Hrun as <-. vm_compute in Hname. discriminate Hname.
Qed.

(** C10: two payloads that differ at most in the [update_time] of their
    global variables give the same five outputs (or the same exception), and
    the text of the refresh time is made from the local clock alone. *)
Theorem counts_ignore_update_time (now : datetime) (status : Z) (res1 res2 : QQ) :
  agree_except_update_time res1 res2 →
  update_counts now (reply status res1) = update_counts now (reply status res2)
  ∧ ∀ text confirmed suspected dead cured,
      update_counts now (reply status res1)
      = Ok (text, confirmed, suspected, dead, cured) →
      text = "更新时间：" +:+ strftime now.
Proof.
  intros [_ Hvars].
  assert (counts_of now res1 = counts_of now res2) as Hcounts.
  { unfold counts_of.
    destruct Hvars as [|g1 g2 l1 l2 (Hc & Hs & Hd & Hh) _]; [done|].
    simpl. by rewrite Hc, Hs, Hd, Hh. }
  split.
  - unfold update_counts, Requests.fetch, reply, Requests.get.
    rewrite !bind_Ok.
    destruct (Requests.raise_for_status _) as [[]|e]; [|done].
    by rewrite !bind_Ok.
  - intros text c s d h. unfold update_counts.
    destruct (Requests.fetch (reply status res1)) as [res|e] eqn:Hfetch; [|done].
    rewrite bind_Ok. unfold counts_of.
    destruct (first (wuwei_ww_global_vars res)) as [g|e]; [|done].
    simpl. by intros [= <- _ _ _ _].
Qed.

Lemma counts_ignore_update_time_witness :
  agree_except_update_time
    {| wuwei_ww_cn_day_counts := [jan23];
       wuwei_ww_global_vars := [totals 11821] |}
    {| wuwei_ww_cn_day_counts := [jan23];
       wuwei_ww_global_vars := [later_totals 11821] |}
  ∧ update_counts noon
      (reply 200 {| wuwei_ww_cn_day_counts := [jan23];
                    wuwei_ww_global_vars := [totals 11821] |})
    = update_counts noon
        (reply 200 {| wuwei_ww_cn_day_counts := [jan23];
                      wuwei_ww_global_vars := [later_totals 11821] |})
  ∧ ∀ text confirmed suspected dead cured,
      update_counts noon
        (reply 200 {| wuwei_ww_cn_day_counts := [jan23];
                      wuwei_ww_global_vars := [totals 11821] |})
      = Ok (text, confirmed, suspected, dead, cured) →
      text = "更新时间：2020-02-01 12:00:00".
Proof.
  assert (agree_except_update_time
    {| wuwei_ww_cn_day_counts := [jan23];
       wuwei_ww_global_vars := [totals 11821] |}
    {| wuwei_ww_cn_day_counts := [jan23];
       wuwei_ww_global_vars := [later_totals 11821] |}) as H.
  { split; [reflexivity|]. repeat constructor. }
  split; [exact H|].
  apply (counts_ignore_update_time noon 200 _ _ H).
Defined.

(** * More about app.py *)

Set Warnings "-clear-no-such-hyp".

(** ** The three lines that fetch a payload *)

Lemma fetch_cases {A} (upstream : option (Requests.Response A)) :
  Requests.fetch upstream
  = match upstream with
    | None => Raise ConnectionError
    | Some r =>
        if (400 <=? Requests.status_code r) && (Requests.status_code r <? 600)
        then Raise HTTPError
        else match Requests.body r with
             | Some a => Ok a
             | None => Raise JSONDecodeError
             end
    end.
Proof.
  destruct upstream as [r|]; [|done].
  unfold Requests.fetch, Requests.get, Requests.raise_for_status, Requests.json.
  rewrite bind_Ok. by destruct (_ && _).
Qed.

Lemma error_status_spec (status : Z) :
  ((400 <=? status) && (status <? 600) = true ∧ 400 ≤ status < 600)
  ∨ ((400 <=? status) && (status <? 600) = false ∧ ¬ (400 ≤ status < 600)).
Proof.
  destruct (400 <=? status) eqn:E1, (status <? 600) eqn:E2; simpl;
    [left|right..]; split; try done; lia.
Qed.

(** X1: each of the four callbacks checks the status of the answer before
    it decodes the body: an answer with a status from 400 to 599 makes the
    callback raise [HTTPError] whatever its body holds, whether it is JSON or
    not, and the city map then leaves the files as they are. *)
Theorem callbacks_check_status_first (status : Z) (qq : option QQ)
    (dxy : option DXY) (now : datetime) (fs : files) :
  400 ≤ status < 600 →
  update_graph
    (Some {| Requests.status_code := status; Requests.body := qq |})
  = Raise HTTPError
  ∧ update_counts now
      (Some {| Requests.status_code := status; Requests.body := qq |})
    = Raise HTTPError
  ∧ update_province_map
      (Some {| Requests.status_code := status; Requests.body := dxy |})
    = Raise HTTPError
  ∧ update_city_map
      (Some {| Requests.status_code := status; Requests.body := dxy |}) fs
    = (Raise HTTPError, fs).
Proof.
  intros Hst.
  assert (∀ A (b : option A),
            Requests.fetch
              (Some {| Requests.status_code := status; Requests.body := b |})
            = Raise HTTPError) as Hf.
  { intros A b. rewrite fetch_cases. cbn [Requests.status_code].
    by destruct (error_status_spec status) as [[-> _]|[_ ?]]. }
  unfold update_graph, update_counts, update_province_map, update_city_map.
  by rewrite !Hf.
Qed.

Lemma callbacks_check_status_first_witness :
  400 ≤ 500 < 600
  ∧ update_graph
      (Some {| Requests.status_code := 500; Requests.body := None |})
    = Raise HTTPError
  ∧ update_counts noon
      (Some {| Requests.status_code := 500; Requests.body := None |})
    = Raise HTTPError
  ∧ update_province_map
      (Some {| Requests.status_code := 500;
               Requests.body := Some {| getAreaStat := [beijing] |} |})
    = Raise HTTPError
  ∧ update_city_map
      (Some {| Requests.status_code := 500;
               Requests.body := Some {| getAreaStat := [beijing] |} |})
      (disk published)
    = (Raise HTTPError, disk published).
Proof.
  assert (400 ≤ 500 < 600) as H by lia.
  split; [exact H|].
  exact (callbacks_check_status_first 500 None
           (Some {| getAreaStat := [beijing] |}) noon (disk published) H).
Defined.

(** ** More about update_graph *)

Lemma fetch_reply_cases {A} (status : Z) (a : A) :
  Requests.fetch (reply status a)
  = if (400 <=? status) && (status <? 600) then Raise HTTPError else Ok a.
Proof. by rewrite fetch_cases. Qed.

Lemma update_graph_series_inv (data : list DayCount) dates cs ss ds hs :
  update_graph_series data = Ok (dates, cs, ss, ds, hs) →
  data ≠ []
  ∧ zip5 dates cs ss ds hs
    = sorted (map (λ i, (format_date (date i), confirm i, suspect i, dead i,
                         heal i)) data)
  ∧ dates = map (λ r, r.1.1.1.1) (zip5 dates cs ss ds hs)
  ∧ cs = map (λ r, r.1.1.1.2) (zip5 dates cs ss ds hs).
Proof.
  intros Hrun. assert (data ≠ []) as Hdata by (by intros ->).
  split; [done|]. rewrite update_graph_series_eq in Hrun by done.
  remember (sorted _) as rows eqn:Hrows. injection Hrun as <- <- <- <- <-.
  by rewrite zip5_projections.
Qed.

Lemma update_graph_series_empty_iff (data : list DayCount) e :
  update_graph_series data = Raise e ↔ e = ValueError ∧ data = [].
Proof.
  destruct data as [|i data].
  - split; [by intros [= <-] | by intros [-> _]].
  - rewrite update_graph_series_eq by done. naive_solver.
Qed.

(** The figure, spelt out. *)
Lemma update_graph_cases (upstream : option (Requests.Response QQ)) :
  update_graph upstream
  = match Requests.fetch upstream with
    | Raise e => Raise e
    | Ok res =>
        match update_graph_series (wuwei_ww_cn_day_counts res) with
        | Raise e => Raise e
        | Ok (dates, confirmeds, suspecteds, deads, cureds) =>
            Ok [({| Go.x := dates; Go.y := confirmeds; Go.name := "确诊" |},
                 (1, 1)%nat);
                ({| Go.x := dates; Go.y := suspecteds; Go.name := "疑似" |},
                 (1, 1)%nat);
                ({| Go.x := dates; Go.y := deads; Go.name := "死亡" |},
                 (2, 1)%nat);
                ({| Go.x := dates; Go.y := cureds; Go.name := "治愈" |},
                 (2, 1)%nat)]
        end
    end.
Proof.
  unfold update_graph. destruct (Requests.fetch upstream) as [res|e]; [|done].
  rewrite bind_Ok.
  by destruct (update_graph_series _) as [[[[[dates cs] ss] ds] hs]|e].
Qed.

(** X2: on a fetched payload of the expected shape [update_graph] raises
    only when the array of day counts is empty, and then [ValueError]; on a
    non-empty array it returns a figure. *)
Theorem update_graph_raises (upstream : option (Requests.Response QQ))
    (res : QQ) :
  Requests.fetch upstream = Ok res →
  (∀ e, update_graph upstream = Raise e
        ↔ e = ValueError ∧ wuwei_ww_cn_day_counts res = [])
  ∧ (wuwei_ww_cn_day_counts res ≠ [] →
       ∃ fig, update_graph upstream = Ok fig).
Proof.
  intros Hres. rewrite update_graph_cases, Hres.
  destruct (update_graph_series (wuwei_ww_cn_day_counts res))
    as [[[[[dates cs] ss] ds] hs]|e'] eqn:Hrun.
  - apply update_graph_series_inv in Hrun as [Hdata _]. split.
    + intros e. split; [done|]. by intros [_ ?].
    + intros _. by eexists.
  - apply update_graph_series_empty_iff in Hrun as [-> Hdata]. split.
    + intros e. split; [by intros [= <-] | by intros [-> _]].
    + done.
Qed.

Lemma update_graph_raises_witness :
  Requests.fetch
    (reply 200 {| wuwei_ww_cn_day_counts := [jan23];
                  wuwei_ww_global_vars := [] |})
  = Ok {| wuwei_ww_cn_day_counts := [jan23]; wuwei_ww_global_vars := [] |}
  ∧ (∀ e, update_graph
            (reply 200 {| wuwei_ww_cn_day_counts := [jan23];
                          wuwei_ww_global_vars := [] |}) = Raise e
          ↔ e = ValueError ∧ [jan23] = [])
  ∧ ([jan23] ≠ [] →
       ∃ fig, update_graph
                (reply 200 {| wuwei_ww_cn_day_counts := [jan23];
                              wuwei_ww_global_vars := [] |}) = Ok fig).
Proof.
  assert (Requests.fetch
            (reply 200 {| wuwei_ww_cn_day_counts := [jan23];
                          wuwei_ww_global_vars := [] |})
          = Ok {| wuwei_ww_cn_day_counts := [jan23];
                  wuwei_ww_global_vars := [] |}) as H by reflexivity.
  split; [exact H|].
  exact (update_graph_raises _ _ H).
Defined.

(** X3: the figure that [update_graph] returns has four traces over one and
    the same sequence of dates, which is not empty and in string order:
    确诊 and 疑似 on the first row of the subplots, 死亡 and 治愈 on the
    second, each with as many values as there are dates. *)
Theorem update_graph_figure (upstream : option (Requests.Response QQ))
    (fig : Go.Subplots) :
  update_graph upstream = Ok fig →
  ∃ dates confirmeds suspecteds deads cureds,
    fig = [({| Go.x := dates; Go.y := confirmeds; Go.name := "确诊" |},
            (1, 1)%nat);
           ({| Go.x := dates; Go.y := suspecteds; Go.name := "疑似" |},
            (1, 1)%nat);
           ({| Go.x := dates; Go.y := deads; Go.name := "死亡" |},
            (2, 1)%nat);
           ({| Go.x := dates; Go.y := cureds; Go.name := "治愈" |},
            (2, 1)%nat)]
    ∧ dates ≠ []
    ∧ Sorted String.le dates
    ∧ length confirmeds = length dates
    ∧ length suspecteds = length dates
    ∧ length deads = length dates
    ∧ length cureds = length dates.
Proof.
  rewrite update_graph_cases.
  destruct (Requests.fetch upstream) as [res|e]; [|done].
  destruct (update_graph_series (wuwei_ww_cn_day_counts res))
    as [[[[[dates cs] ss] ds] hs]|e] eqn:Hrun; [|done].
  intros [= <-]. exists dates, cs, ss, ds, hs. split; [done|].
  assert (wuwei_ww_cn_day_counts res ≠ []) as Hdata by (by intros Hnil; rewrite Hnil in Hrun).
  rewrite update_graph_series_eq in Hrun by done.
  remember (sorted _) as rows eqn:Hrows. injection Hrun as <- <- <- <- <-.
  assert (rows ≡ₚ map (λ i, (format_date (date i), confirm i, suspect i, dead i,
                             heal i)) (wuwei_ww_cn_day_counts res)) as Hp
    by (rewrite Hrows; apply (merge_sort_Permutation tuple_le)).
  rewrite !length_map. repeat split.
  - intros Hnil. apply (f_equal length) in Hnil.
    rewrite length_map, Hp, length_map in Hnil.
    by destruct (wuwei_ww_cn_day_counts res).
  - apply (Sorted_fmap (λ r : string * Z * Z * Z * Z, r.1.1.1.1)
             tuple_le String.le).
    + intros a b. apply tuple_le_date.
    + rewrite Hrows. apply (Sorted_merge_sort tuple_le).
Qed.

Lemma update_graph_figure_witness :
  update_graph (reply 200 {| wuwei_ww_cn_day_counts := [jan23];
                             wuwei_ww_global_vars := [] |})
  = Ok jan23_figure
  ∧ ∃ dates confirmeds suspecteds deads cureds,
      jan23_figure
      = [({| Go.x := dates; Go.y := confirmeds; Go.name := "确诊" |},
          (1, 1)%nat);
         ({| Go.x := dates; Go.y := suspecteds; Go.name := "疑似" |},
          (1, 1)%nat);
         ({| Go.x := dates; Go.y := deads; Go.name := "死亡" |},
          (2, 1)%nat);
         ({| Go.x := dates; Go.y := cureds; Go.name := "治愈" |},
          (2, 1)%nat)]
      ∧ dates ≠ []
      ∧ Sorted String.le dates
      ∧ length confirmeds = length dates
      ∧ length suspecteds = length dates
      ∧ length deads = length dates
      ∧ length cureds = length dates.
Proof.
  assert (update_graph (reply 200 {| wuwei_ww_cn_day_counts := [jan23];
                                     wuwei_ww_global_vars := [] |})
          = Ok jan23_figure) as H by (vm_compute; reflexivity).
  split; [exact H|]. exact (update_graph_figure _ _ H).
Defined.

Lemma sorted_Permutation (l1 l2 : list (string * Z * Z * Z * Z)) :
  l1 ≡ₚ l2 → sorted l1 = sorted l2.
Proof.
  intros Hp. apply sorted_unique.
  - apply (Sorted_merge_sort tuple_le).
  - rewrite <-Hp. apply (merge_sort_Permutation tuple_le).
Qed.

Lemma update_graph_series_Permutation (data1 data2 : list DayCount) :
  data1 ≡ₚ data2 → update_graph_series data1 = update_graph_series data2.
Proof.
  intros Hp. destruct data1 as [|i data1].
  - by apply Permutation_nil_l in Hp as ->.
  - assert (data2 ≠ []) as H2.
    { intros ->. by apply Permutation_nil_r in Hp. }
    rewrite !update_graph_series_eq by done. cbv zeta.
    rewrite (sorted_Permutation _
      (map (λ i, (format_date (date i), confirm i, suspect i, dead i, heal i))
         data2)); [done|].
    rewrite !map_fmap. by apply fmap_Permutation.
Qed.

(** X4: the figure does not depend on the order in which the upstream lists
    the days, nor on the global variables that come in the same payload: two
    replies with the same status whose day counts are the same records in
    any order give the same result. *)
Theorem update_graph_order_irrelevant (status : Z) (res1 res2 : QQ) :
  wuwei_ww_cn_day_counts res1 ≡ₚ wuwei_ww_cn_day_counts res2 →
  update_graph (reply status res1) = update_graph (reply status res2).
Proof.
  intros Hp. rewrite !update_graph_cases, !fetch_reply_cases.
  destruct (_ && _); [done|].
  by rewrite (update_graph_series_Permutation _ _ Hp).
Qed.

Lemma update_graph_order_irrelevant_witness :
  [jan23; feb01] ≡ₚ [feb01; jan23]
  ∧ update_graph (reply 200 {| wuwei_ww_cn_day_counts := [jan23; feb01];
                               wuwei_ww_global_vars := [] |})
    = update_graph (reply 200 {| wuwei_ww_cn_day_counts := [feb01; jan23];
                                 wuwei_ww_global_vars := [totals 11821] |}).
Proof.
  assert ([jan23; feb01] ≡ₚ [feb01; jan23]) as H by apply Permutation_swap.
  split; [exact H|].
  exact (update_graph_order_irrelevant 200
           {| wuwei_ww_cn_day_counts := [jan23; feb01];
              wuwei_ww_global_vars := [] |}
           {| wuwei_ww_cn_day_counts := [feb01; jan23];
              wuwei_ww_global_vars := [totals 11821] |} H).
Defined.

Lemma Sorted_lookup_adjacent {A} (R : relation A) (l : list A) i a b :
  Sorted R l → l !! i = Some a → l !! S i = Some b → R a b.
Proof.
  intros Hl. revert i. induction Hl as [|x l Hl IH Hhd]; intros i; [done|].
  destruct i as [|i]; simpl.
  - intros [= ->] Hb. destruct Hhd as [|y l' Hxy]; [done|].
    simpl in Hb. by injection Hb as ->.
  - apply IH.
Qed.

Lemma tuple_le_same_date d c1 s1 x1 h1 c2 s2 x2 h2 :
  tuple_le (d, c1, s1, x1, h1) (d, c2, s2, x2, h2) → c1 ≤ c2.
Proof.
  unfold tuple_le, le_of, tuple_compare, prod_compare, lex; simpl.
  rewrite string_compare_refl.
  destruct (Z.compare_spec c1 c2) as [?|?|?]; [lia|lia|].
  intros Hgt. by destruct Hgt.
Qed.

(** X5: days that carry the same date are all kept, and among them the
    chart goes by the confirmed count: read across, the five sequences are
    the records of the payload rearranged, as many as the payload has, in the
    order of Python's tuples; so where two neighbouring points have the same
    date the earlier one has the smaller or equal confirmed count. *)
Theorem update_graph_same_date (data : list DayCount) dates confirmeds
    suspecteds deads cureds :
  update_graph_series data = Ok (dates, confirmeds, suspecteds, deads, cureds) →
  zip5 dates confirmeds suspecteds deads cureds
  ≡ₚ map (λ i, (format_date (date i), confirm i, suspect i, dead i, heal i))
       data
  ∧ length dates = length data
  ∧ Sorted tuple_le (zip5 dates confirmeds suspecteds deads cureds)
  ∧ ∀ i d c1 c2,
      dates !! i = Some d → dates !! S i = Some d →
      confirmeds !! i = Some c1 → confirmeds !! S i = Some c2 →
      c1 ≤ c2.
Proof.
  intros (Hdata & Hrows & Hdates & Hcs)%update_graph_series_inv.
  remember (zip5 dates confirmeds suspecteds deads cureds) as rows eqn:Hz.
  assert (Sorted tuple_le rows) as Hs
    by (rewrite Hrows; apply (Sorted_merge_sort tuple_le)).
  assert (rows ≡ₚ map (λ i, (format_date (date i), confirm i, suspect i,
                             dead i, heal i)) data) as Hp
    by (rewrite Hrows; apply (merge_sort_Permutation tuple_le)).
  split; [done|]. split.
  { rewrite Hdates, length_map, Hp. by rewrite length_map. }
  split; [done|]. clear Hz Hrows Hp. subst dates confirmeds.
  intros i d c1 c2. rewrite !map_fmap, !list_lookup_fmap.
  destruct (rows !! i) as [[[[[d1 a1] b1] x1] h1]|] eqn:Hi; [|done].
  destruct (rows !! S i) as [[[[[d2 a2] b2] x2] h2]|] eqn:Hj; [|done].
  simpl. intros [= ->] [= ->] [= ->] [= ->].
  eapply tuple_le_same_date, Sorted_lookup_adjacent; [exact Hs|exact Hi|exact Hj].
Qed.

Lemma update_graph_same_date_witness :
  update_graph_series [jan23; jan23_recount]
  = Ok (["2020-1-23"; "2020-1-23"], [90; 100], [60; 50], [2; 2], [5; 5])
  ∧ zip5 ["2020-1-23"; "2020-1-23"] [90; 100] [60; 50] [2; 2] [5; 5]
    ≡ₚ [("2020-1-23", 100, 50, 2, 5); ("2020-1-23", 90, 60, 2, 5)]
  ∧ length ["2020-1-23"; "2020-1-23"] = 2%nat
  ∧ Sorted tuple_le
      (zip5 ["2020-1-23"; "2020-1-23"] [90; 100] [60; 50] [2; 2] [5; 5])
  ∧ ∀ i d c1 c2,
      ["2020-1-23"; "2020-1-23"] !! i = Some d →
      ["2020-1-23"; "2020-1-23"] !! S i = Some d →
      [90; 100] !! i = Some c1 → [90; 100] !! S i = Some c2 →
      c1 ≤ c2.
Proof.
  assert (update_graph_series [jan23; jan23_recount]
          = Ok (["2020-1-23"; "2020-1-23"], [90; 100], [60; 50], [2; 2], [5; 5]))
    as H by (vm_compute; reflexivity).
  split; [exact H|]. exact (update_graph_same_date _ _ _ _ _ _ H).
Defined.

(** ** More about update_counts *)

Lemma counts_of_cases (now : datetime) (res : QQ) :
  counts_of now res
  = match wuwei_ww_global_vars res with
    | [] => Raise IndexError
    | g :: _ =>
        Ok ("更新时间：" +:+ strftime now, format_0d 5 (confirmCount g),
            format_0d 5 (suspectCount g), format_0d 5 (deadCount g),
            format_0d 5 (cure g))
    end.
Proof. unfold counts_of. by destruct (wuwei_ww_global_vars res). Qed.

(** X6: on a fetched payload of the expected shape [update_counts] raises
    only when the array of global variables is empty, and then
    [IndexError]; on a non-empty array it returns the five outputs. *)
Theorem update_counts_raises (now : datetime)
    (upstream : option (Requests.Response QQ)) (res : QQ) :
  Requests.fetch upstream = Ok res →
  (∀ e, update_counts now upstream = Raise e
        ↔ e = IndexError ∧ wuwei_ww_global_vars res = [])
  ∧ (wuwei_ww_global_vars res ≠ [] →
       ∃ out, update_counts now upstream = Ok out).
Proof.
  intros Hres. unfold update_counts. rewrite Hres, bind_Ok, counts_of_cases.
  destruct (wuwei_ww_global_vars res) as [|g l] eqn:Hgv.
  - split; [|done].
    intros e. split; [by intros [= <-] | by intros [-> _]].
  - split; [|intros _; by eexists].
    intros e. split; [done|]. by intros [_ ?].
Qed.

Lemma update_counts_raises_witness :
  Requests.fetch
    (reply 200 {| wuwei_ww_cn_day_counts := [];
                  wuwei_ww_global_vars := [totals 11821] |})
  = Ok {| wuwei_ww_cn_day_counts := [];
          wuwei_ww_global_vars := [totals 11821] |}
  ∧ (∀ e, update_counts noon
            (reply 200 {| wuwei_ww_cn_day_counts := [];
                          wuwei_ww_global_vars := [totals 11821] |}) = Raise e
          ↔ e = IndexError ∧ [totals 11821] = [])
  ∧ ([totals 11821] ≠ [] →
       ∃ out, update_counts noon
                (reply 200 {| wuwei_ww_cn_day_counts := [];
                              wuwei_ww_global_vars := [totals 11821] |})
              = Ok out).
Proof.
  assert (Requests.fetch
            (reply 200 {| wuwei_ww_cn_day_counts := [];
                          wuwei_ww_global_vars := [totals 11821] |})
          = Ok {| wuwei_ww_cn_day_counts := [];
                  wuwei_ww_global_vars := [totals 11821] |}) as H
    by reflexivity.
  split; [exact H|].
  exact (update_counts_raises noon _ _ H).
Defined.

(** X7: the counters are made from the first element of the global
    variables and the clock, and from nothing else: two payloads whose arrays
    start with the same element give the same five outputs, whatever the rest
    of the arrays and the day counts are. *)
Theorem update_counts_first_element (now : datetime) (status : Z)
    (res1 res2 : QQ) :
  wuwei_ww_global_vars res1 !! 0%nat = wuwei_ww_global_vars res2 !! 0%nat →
  update_counts now (reply status res1) = update_counts now (reply status res2).
Proof.
  intros Hfirst. unfold update_counts. rewrite !fetch_reply_cases.
  destruct (_ && _); [done|]. rewrite !bind_Ok, !counts_of_cases.
  revert Hfirst.
  destruct (wuwei_ww_global_vars res1) as [|g1 l1],
    (wuwei_ww_global_vars res2) as [|g2 l2]; simpl; try done.
  by intros [= ->].
Qed.

Lemma update_counts_first_element_witness :
  [totals 11821; totals 0] !! 0%nat = [totals 11821] !! 0%nat
  ∧ update_counts noon
      (reply 200 {| wuwei_ww_cn_day_counts := [jan23];
                    wuwei_ww_global_vars := [totals 11821; totals 0] |})
    = update_counts noon
        (reply 200 {| wuwei_ww_cn_day_counts := [];
                      wuwei_ww_global_vars := [totals 11821] |}).
Proof.
  assert ([totals 11821; totals 0] !! 0%nat = [totals 11821] !! 0%nat) as H
    by reflexivity.
  split; [exact H|].
  exact (update_counts_first_element noon 200
           {| wuwei_ww_cn_day_counts := [jan23];
              wuwei_ww_global_vars := [totals 11821; totals 0] |}
           {| wuwei_ww_cn_day_counts := [];
              wuwei_ww_global_vars := [totals 11821] |} H).
Defined.

(** ** More about update_province_map *)

Lemma province_trace_cases (data : list Province.t) :
  province_trace data
  = match data with
    | [] => Raise ValueError
    | _ =>
        Ok {| Go.featureidkey := "properties.NL_NAME_1";
              Go.locations := map (λ r, r.1.1.1.1) (map province_tuple data);
              Go.z := Np.log (Np.add1 (map Province.confirmedCount data));
              Go.customdata := map province_tuple data |}
    end.
Proof.
  destruct data as [|p data]; [done|]. unfold province_trace.
  rewrite <-(map_map province_tuple (λ r, r.1.1.1.2)).
  remember (map province_tuple (p :: data)) as rows eqn:Hrows.
  rewrite unpack5_nonempty by (by rewrite Hrows).
  rewrite bind_Ok. cbv beta iota. by rewrite zip5_projections.
Qed.

(** X8: on a fetched payload of the expected shape whose confirmed counts
    are int64 values, [update_province_map] raises only when the list of
    provinces is empty, and then [ValueError]: like the chart and unlike the
    city map, the province map cannot be drawn from an empty payload; on a
    list that is not empty it returns a figure. *)
Theorem update_province_map_raises (upstream : option (Requests.Response DXY))
    (res : DXY) :
  Requests.fetch upstream = Ok res →
  Forall (λ p, Np.in_int64 (Province.confirmedCount p)) (getAreaStat res) →
  (∀ e, update_province_map upstream = Raise e
        ↔ e = ValueError ∧ getAreaStat res = [])
  ∧ (getAreaStat res ≠ [] → ∃ tr, update_province_map upstream = Ok tr).
Proof.
  intros Hres _. unfold update_province_map.
  rewrite Hres, bind_Ok, province_trace_cases.
  destruct (getAreaStat res) as [|p l] eqn:Hdata.
  - split; [|done].
    intros e. split; [by intros [= <-] | by intros [-> _]].
  - split; [|intros _; by eexists].
    intros e. split; [done|]. by intros [_ ?].
Qed.

Lemma update_province_map_raises_witness :
  Requests.fetch (reply 200 {| getAreaStat := [beijing; hubei_cities] |})
  = Ok {| getAreaStat := [beijing; hubei_cities] |}
  ∧ Forall (λ p, Np.in_int64 (Province.confirmedCount p))
      [beijing; hubei_cities]
  ∧ (∀ e, update_province_map
            (reply 200 {| getAreaStat := [beijing; hubei_cities] |}) = Raise e
          ↔ e = ValueError ∧ [beijing; hubei_cities] = [])
  ∧ ([beijing; hubei_cities] ≠ [] →
       ∃ tr, update_province_map
               (reply 200 {| getAreaStat := [beijing; hubei_cities] |})
             = Ok tr).
Proof.
  assert (Requests.fetch (reply 200 {| getAreaStat := [beijing; hubei_cities] |})
          = Ok {| getAreaStat := [beijing; hubei_cities] |}) as H
    by reflexivity.
  assert (Forall (λ p, Np.in_int64 (Province.confirmedCount p))
            [beijing; hubei_cities]) as Hcol
    by (repeat constructor; unfold Np.in_int64; simpl; lia).
  split; [exact H|]. split; [exact Hcol|].
  exact (update_province_map_raises _ _ H Hcol).
Defined.

Lemma province_tuple_same (p q : Province.t) :
  same_for_province_map p q → province_tuple p = province_tuple q.
Proof.
  intros (Hn & Hc & Hs & Hcu & Hd). unfold province_tuple.
  by rewrite Hn, Hc, Hs, Hcu, Hd.
Qed.

(** X9: the province map is drawn from the display names and the four
    counts of the provinces alone: two payloads that agree on these, entry by
    entry, give the same trace, whatever their short names and their lists of
    cities. *)
Theorem province_map_ignores_cities (data1 data2 : list Province.t) :
  Forall2 same_for_province_map data1 data2 →
  province_trace data1 = province_trace data2.
Proof.
  intros H.
  assert (map province_tuple data1 = map province_tuple data2) as Ht.
  { induction H as [|p q l1 l2 Hpq _ IH]; simpl; [done|].
    by rewrite (province_tuple_same p q Hpq), IH. }
  assert (map Province.confirmedCount data1 = map Province.confirmedCount data2)
    as Hc.
  { clear Ht. induction H as [|p q l1 l2 (_ & Hc & _) _ IH]; cbn [map]; [done|].
    by f_equal. }
  rewrite !province_trace_cases, Ht, Hc. by destruct H.
Qed.

Lemma province_map_ignores_cities_witness :
  Forall2 same_for_province_map [hubei 9074] [hubei_cities_only]
  ∧ province_trace [hubei 9074] = province_trace [hubei_cities_only].
Proof.
  assert (Forall2 same_for_province_map [hubei 9074] [hubei_cities_only]) as H
    by (repeat constructor).
  split; [exact H|].
  exact (province_map_ignores_cities [hubei 9074] [hubei_cities_only] H).
Defined.

(** ** More about update_city_map *)

Lemma province_pass_raises (t : columns) (p : Province.t) (e : exn) :
  province_pass t p = Raise e ↔ e = KeyError ∧ lacks_cities p.
Proof.
  unfold province_pass, cities_of, lacks_cities. case_bool_decide as Hmun.
  - split; [done|]. by intros [_ [? _]].
  - destruct (Province.cities p) as [l|].
    + rewrite bind_Ok. split; [done|]. by intros [_ [_ ?]].
    + rewrite bind_Raise. split; [by intros [= <-] | by intros [-> _]].
Qed.

Lemma province_loop_raises (t : columns) (data : list Province.t) (e : exn) :
  province_loop t data = Raise e ↔ e = KeyError ∧ Exists lacks_cities data.
Proof.
  revert t. induction data as [|p data IH]; intros t; cbn [province_loop].
  - split; [done|]. intros [_ H]. by apply Exists_nil in H.
  - rewrite Exists_cons.
    destruct (province_pass t p) as [t'|e'] eqn:Hpass.
    + rewrite bind_Ok, IH. split; [naive_solver|].
      intros [-> [Hp|Hdata]]; [|done].
      assert (province_pass t p = Raise KeyError) as Hr
        by (by apply province_pass_raises).
      congruence.
    + rewrite bind_Raise. apply province_pass_raises in Hpass as [-> Hp].
      split; [by intros [= <-]; auto | by intros [-> _]].
Qed.

(** X10: on a fetched payload of the expected shape whose confirmed counts
    are int64 values, [update_city_map] raises only when some entry is not a
    municipality and has no [cities] key, and then [KeyError]; otherwise it
    returns a figure, and an empty list of provinces is not an error. *)
Theorem update_city_map_raises (upstream : option (Requests.Response DXY))
    (fs : files) (res : DXY) :
  Requests.fetch upstream = Ok res →
  Forall (λ r, Np.in_int64 r.1.1.1.2)
    (concat (map contribution (getAreaStat res))) →
  (∀ e, (update_city_map upstream fs).1 = Raise e
        ↔ e = KeyError ∧ Exists lacks_cities (getAreaStat res))
  ∧ (¬ Exists lacks_cities (getAreaStat res) →
       ∃ tr, (update_city_map upstream fs).1 = Ok tr).
Proof.
  intros Hres _. unfold update_city_map. rewrite Hres, bind_Ok.
  destruct (province_loop no_rows (getAreaStat res)) as [t|e'] eqn:Hloop;
    cbn [fst].
  - split; [|intros _; by eexists].
    intros e. split; [done|]. intros [-> Hex].
    assert (province_loop no_rows (getAreaStat res) = Raise KeyError) as Hr
      by (by apply province_loop_raises).
    congruence.
  - apply province_loop_raises in Hloop as [-> Hex]. split; [|done].
    intros e. split; [by intros [= <-] | by intros [-> _]].
Qed.

Lemma update_city_map_raises_witness :
  Requests.fetch (reply 200 {| getAreaStat := [beijing; hubei_cities] |})
  = Ok {| getAreaStat := [beijing; hubei_cities] |}
  ∧ Forall (λ r, Np.in_int64 r.1.1.1.2)
      (concat (map contribution [beijing; hubei_cities]))
  ∧ (∀ e, (update_city_map
             (reply 200 {| getAreaStat := [beijing; hubei_cities] |})
             (disk published)).1 = Raise e
          ↔ e = KeyError ∧ Exists lacks_cities [beijing; hubei_cities])
  ∧ (¬ Exists lacks_cities [beijing; hubei_cities] →
       ∃ tr, (update_city_map
                (reply 200 {| getAreaStat := [beijing; hubei_cities] |})
                (disk published)).1 = Ok tr).
Proof.
  assert (Requests.fetch (reply 200 {| getAreaStat := [beijing; hubei_cities] |})
          = Ok {| getAreaStat := [beijing; hubei_cities] |}) as H
    by reflexivity.
  assert (Forall (λ r, Np.in_int64 r.1.1.1.2)
            (concat (map contribution [beijing; hubei_cities]))) as Hcol
    by (repeat constructor; unfold Np.in_int64; simpl; lia).
  split; [exact H|]. split; [exact Hcol|].
  exact (update_city_map_raises _ (disk published) _ H Hcol).
Defined.

(** X11: [cities_data.csv] is written exactly when the callback returns a
    figure, and then it holds the table that the figure draws: when the
    callback raises the files are untouched; when it returns, the file holds
    five columns of equal length, the first is the locations of the trace,
    the rows are its custom data, and there is one intensity per row. *)
Theorem update_city_map_file (upstream : option (Requests.Response DXY))
    (fs fs' : files) (r : result Go.Choroplethmapbox) :
  update_city_map upstream fs = (r, fs') →
  match r with
  | Raise _ => fs' = fs
  | Ok tr =>
      ∃ t, cities_data_csv fs' = Some t
           ∧ aligned t
           ∧ cities t = Go.locations tr
           ∧ rows_of t = Go.customdata tr
           ∧ length (Go.z tr) = length (cities t)
  end.
Proof.
  destruct r as [tr|e].
  - intros (res & t & _ & _ & Ht & Hloc & Hz & Hcd & ->)%update_city_map_eq.
    exists t. repeat split; try done; try apply Ht.
    rewrite Hz. unfold Np.log, Np.add1. rewrite !length_map. apply Ht.
  - unfold update_city_map.
    destruct (Requests.fetch upstream ≫= _) as [t|e']; by intros [= _ <-].
Qed.

Lemma update_city_map_file_witness :
  update_city_map (reply 200 {| getAreaStat := [beijing; hubei_cities] |})
    (disk published)
  = ((update_city_map (reply 200 {| getAreaStat := [beijing; hubei_cities] |})
        (disk published)).1,
     {| cities_data_csv :=
          Some {| cities := ["北京"; "武汉"; "黄冈"];
                  confirmeds := [183; 4109; 1002];
                  suspecteds := [0; 0; 0];
                  cureds := [9; 224; 27];
                  deads := [1; 224; 15] |} |})
  ∧ match (update_city_map
             (reply 200 {| getAreaStat := [beijing; hubei_cities] |})
             (disk published)).1 with
    | Raise _ =>
        {| cities_data_csv :=
             Some {| cities := ["北京"; "武汉"; "黄冈"];
                     confirmeds := [183; 4109; 1002];
                     suspecteds := [0; 0; 0];
                     cureds := [9; 224; 27];
                     deads := [1; 224; 15] |} |} = disk published
    | Ok tr =>
        ∃ t, Some {| cities := ["北京"; "武汉"; "黄冈"];
                     confirmeds := [183; 4109; 1002];
                     suspecteds := [0; 0; 0];
                     cureds := [9; 224; 27];
                     deads := [1; 224; 15] |} = Some t
             ∧ aligned t
             ∧ cities t = Go.locations tr
             ∧ rows_of t = Go.customdata tr
             ∧ length (Go.z tr) = length (cities t)
    end.
Proof.
  assert (update_city_map (reply 200 {| getAreaStat := [beijing; hubei_cities] |})
            (disk published)
          = ((update_city_map
                (reply 200 {| getAreaStat := [beijing; hubei_cities] |})
                (disk published)).1,
             {| cities_data_csv :=
                  Some {| cities := ["北京"; "武汉"; "黄冈"];
                          confirmeds := [183; 4109; 1002];
                          suspecteds := [0; 0; 0];
                          cureds := [9; 224; 27];
                          deads := [1; 224; 15] |} |})) as H by reflexivity.
  split; [exact H|]. exact (update_city_map_file _ _ _ _ H).
Defined.

(** X12: an empty list of provinces is drawn as an empty map: the callback
    returns a trace without locations, and the table of the earlier tick on
    disk is replaced by a table without rows. *)
Theorem update_city_map_empty_payload (status : Z) (fs : files) :
  ¬ (400 ≤ status < 600) →
  update_city_map (reply status {| getAreaStat := [] |}) fs
  = (Ok {| Go.featureidkey := "properties.NAME"; Go.locations := [];
           Go.z := []; Go.customdata := [] |},
     {| cities_data_csv := Some no_rows |}).
Proof.
  intros Hstatus. unfold update_city_map. by rewrite fetch_reply.
Qed.

Lemma update_city_map_empty_payload_witness :
  ¬ (400 ≤ 200 < 600)
  ∧ update_city_map (reply 200 {| getAreaStat := [] |}) (disk published)
    = (Ok {| Go.featureidkey := "properties.NAME"; Go.locations := [];
             Go.z := []; Go.customdata := [] |},
       {| cities_data_csv := Some no_rows |}).
Proof.
  assert (¬ (400 ≤ 200 < 600)) as H by lia.
  split; [exact H|]. exact (update_city_map_empty_payload 200 (disk published) H).
Defined.

(** X13: the city table is the rows of the entries one after the other, in
    the order of the payload: one row for a municipality, one row per city
    for any other entry; so the table has as many rows as these taken
    together, in each of its five columns. *)
Theorem city_table_rows (data : list Province.t) (t : columns) :
  province_loop no_rows data = Ok t →
  rows_of t = concat (map contribution data)
  ∧ length (cities t) = length (concat (map contribution data))
  ∧ aligned t.
Proof.
  intros Hloop.
  assert (aligned t) as Ht
    by (by eapply province_loop_aligned, Hloop; apply aligned_no_rows).
  assert (rows_of t = concat (map contribution data)) as Hrows
    by (by rewrite (province_loop_contributions data no_rows t aligned_no_rows)).
  repeat split; try done; try apply Ht.
  rewrite <-Hrows. unfold rows_of. symmetry. apply length_zip5; apply Ht.
Qed.

Lemma city_table_rows_witness :
  province_loop no_rows [beijing; hubei_cities]
  = Ok {| cities := ["北京"; "武汉"; "黄冈"];
          confirmeds := [183; 4109; 1002];
          suspecteds := [0; 0; 0];
          cureds := [9; 224; 27];
          deads := [1; 224; 15] |}
  ∧ rows_of {| cities := ["北京"; "武汉"; "黄冈"];
               confirmeds := [183; 4109; 1002];
               suspecteds := [0; 0; 0];
               cureds := [9; 224; 27];
               deads := [1; 224; 15] |}
    = concat (map contribution [beijing; hubei_cities])
  ∧ length ["北京"; "武汉"; "黄冈"]
    = length (concat (map contribution [beijing; hubei_cities]))
  ∧ aligned {| cities := ["北京"; "武汉"; "黄冈"];
               confirmeds := [183; 4109; 1002];
               suspecteds := [0; 0; 0];
               cureds := [9; 224; 27];
               deads := [1; 224; 15] |}.
Proof.
  assert (province_loop no_rows [beijing; hubei_cities]
          = Ok {| cities := ["北京"; "武汉"; "黄冈"];
                  confirmeds := [183; 4109; 1002];
                  suspecteds := [0; 0; 0];
                  cureds := [9; 224; 27];
                  deads := [1; 224; 15] |}) as H by reflexivity.
  split; [exact H|]. exact (city_table_rows _ _ H).
Defined.

Lemma province_pass_same (t : columns) (p q : Province.t) :
  same_for_city_map p q → province_pass t p = province_pass t q.
Proof.
  intros [Hname Hrest]. unfold province_pass, cities_of, municipality_row.
  rewrite <-Hname. case_bool_decide.
  - destruct Hrest as (-> & -> & -> & ->). done.
  - by rewrite Hrest.
Qed.

(** X14: the city map never looks at the display name of a province, at the
    counts of a province that is not a municipality, or at the cities of a
    municipality: two payloads that agree, entry by entry, on the short name
    and on what the short name selects give the same figure and the same
    file. *)
Theorem city_map_ignores_the_rest (status : Z) (fs : files)
    (data1 data2 : list Province.t) :
  Forall2 same_for_city_map data1 data2 →
  update_city_map (reply status {| getAreaStat := data1 |}) fs
  = update_city_map (reply status {| getAreaStat := data2 |}) fs.
Proof.
  intros H.
  assert (∀ t, province_loop t data1 = province_loop t data2) as Hloop.
  { induction H as [|p q l1 l2 Hpq _ IH]; intros t; cbn [province_loop]; [done|].
    rewrite (province_pass_same t p q Hpq).
    destruct (province_pass t q) as [t'|e]; [|done]. by rewrite !bind_Ok. }
  unfold update_city_map. rewrite !fetch_reply_cases.
  destruct (_ && _); [done|]. rewrite !bind_Ok. cbn [getAreaStat].
  by rewrite Hloop.
Qed.

Lemma city_map_ignores_the_rest_witness :
  Forall2 same_for_city_map [beijing; hubei_cities] [beijing_bare; hubei_renamed]
  ∧ update_city_map
      (reply 200 {| getAreaStat := [beijing; hubei_cities] |}) (disk published)
    = update_city_map
        (reply 200 {| getAreaStat := [beijing_bare; hubei_renamed] |})
        (disk published).
Proof.
  assert (Forall2 same_for_city_map [beijing; hubei_cities]
            [beijing_bare; hubei_renamed]) as H.
  { repeat constructor. }
  split; [exact H|].
  exact (city_map_ignores_the_rest 200 (disk published) _ _ H).
Defined.

(** X15: a tick repeated on the same answer of the upstream changes
    nothing more, and a tick that returns a figure leaves a page and a file
    that do not depend on what was there before. *)
Theorem city_map_tick_idempotent (upstream : option (Requests.Response DXY))
    (d d' : dashboard) :
  city_map_tick upstream (city_map_tick upstream d) = city_map_tick upstream d
  ∧ ((∃ tr, (update_city_map upstream (disk d)).1 = Ok tr) →
     city_map_tick upstream d = city_map_tick upstream d').
Proof.
  unfold city_map_tick, update_city_map.
  destruct (Requests.fetch upstream ≫= _) as [t|e]; cbn; split; try done.
  by intros [? ?].
Qed.

(** ** More about the text of dates and numbers *)

Lemma split_nonempty (sep : ascii) (s : string) : split sep s ≠ [].
Proof.
  destruct s as [|c s]; cbn [split]; [done|].
  destruct (Ascii.eqb c sep); [done|]. by destruct (split sep s).
Qed.

Lemma join_cons (sep x : string) (l : list string) :
  l ≠ [] → join sep (x :: l) = x +:+ sep +:+ join sep l.
Proof. by destruct l. Qed.

Lemma join_split (a b : ascii) (s : string) :
  join (String b "") (split a s) = replace_char a b s.
Proof.
  induction s as [|c s IH]; [done|]. cbn [split replace_char].
  pose proof (split_nonempty a s) as Hne.
  destruct (Ascii.eqb c a).
  - rewrite join_cons by done. by rewrite IH.
  - destruct (split a s) as [|w ws]; [done|]. rewrite <-IH.
    destruct ws as [|y ws]; [done|].
    rewrite !join_cons by done. by rewrite str_app_cons.
Qed.

Lemma replace_char_same (a : ascii) (s : string) : replace_char a a s = s.
Proof.
  induction s as [|c s IH]; [done|]. cbn [replace_char]. rewrite IH.
  destruct (Ascii.eqb_spec c a) as [->|]; done.
Qed.

Lemma length_replace_char (a b : ascii) (s : string) :
  String.length (replace_char a b s) = String.length s.
Proof. induction s as [|c s IH]; [done|]. simpl. by rewrite IH. Qed.

(** X16: the date of the chart is the date of the payload with every "/"
    turned into "-", after "2020-": whatever the string is, nothing else of
    it is changed or dropped, and it gets five bytes longer.  Joining the
    pieces of a split with the separator itself gives the string back. *)
Theorem format_date_replace (i : string) :
  format_date i = "2020-" +:+ replace_char "/" "-" i
  ∧ String.length (format_date i) = (5 + String.length i)%nat
  ∧ join "/" (split "/" i) = i.
Proof.
  unfold format_date. rewrite (join_split "/" "-"). repeat split.
  - by rewrite str_length_app, length_replace_char.
  - by rewrite (join_split "/" "/"), replace_char_same.
Qed.

Lemma digits_value_zfill_decimal (w : nat) (n : Z) :
  0 ≤ n → digits_value (zfill w (decimal n)) = Some n.
Proof.
  intros Hn. destruct (decimal_spec n Hn) as (k & Hlen & Hval & _).
  unfold zfill, digits_value in *.
  destruct (decimal n) as [|c ds] eqn:Hd; [done|].
  destruct (replicate_str _ _ +:+ String c ds) eqn:Hs.
  { apply (f_equal String.length) in Hs. rewrite str_length_app in Hs.
    simpl in Hs. lia. }
  by rewrite <-Hs, digits_value_go_zeros.
Qed.

Lemma digits_value_format_0d (w : nat) (n : Z) :
  digits_value (format_0d w n) = if n <? 0 then None else Some n.
Proof.
  unfold format_0d. destruct (n <? 0) eqn:E; [done|].
  apply digits_value_zfill_decimal. lia.
Qed.

(** [format(n, "0wd")] tells numbers apart, negative ones included. *)
Lemma format_0d_inj (w : nat) (n m : Z) :
  format_0d w n = format_0d w m → n = m.
Proof.
  intros Heq. pose proof (f_equal digits_value Heq) as Hv.
  rewrite !digits_value_format_0d in Hv.
  destruct (n <? 0) eqn:En, (m <? 0) eqn:Em; try done; [|congruence].
  unfold format_0d in Heq. rewrite En, Em in Heq.
  rewrite !str_app_cons, !str_app_nil_l in Heq. injection Heq as Heq.
  apply (f_equal digits_value) in Heq.
  rewrite !digits_value_zfill_decimal in Heq by lia.
  injection Heq. lia.
Qed.

(** X17: the counters tell the totals apart: when two payloads give the
    same five outputs at the same time, the first elements of their global
    variables carry the same four totals, whatever their sign and size. *)
Theorem counts_determine_totals (now : datetime) (res1 res2 : QQ)
    (g1 g2 : GlobalVars) :
  wuwei_ww_global_vars res1 !! 0%nat = Some g1 →
  wuwei_ww_global_vars res2 !! 0%nat = Some g2 →
  counts_of now res1 = counts_of now res2 →
  same_but_update_time g1 g2.
Proof.
  rewrite !counts_of_cases.
  destruct (wuwei_ww_global_vars res1) as [|h1 l1]; [done|].
  destruct (wuwei_ww_global_vars res2) as [|h2 l2]; [done|].
  intros [= ->] [= ->] [= Hc Hs Hd Hh].
  repeat split; by eapply format_0d_inj.
Qed.

Lemma counts_determine_totals_witness :
  [totals 11821] !! 0%nat = Some (totals 11821)
  ∧ [later_totals 11821] !! 0%nat = Some (later_totals 11821)
  ∧ counts_of noon {| wuwei_ww_cn_day_counts := [];
                      wuwei_ww_global_vars := [totals 11821] |}
    = counts_of noon {| wuwei_ww_cn_day_counts := [];
                        wuwei_ww_global_vars := [later_totals 11821] |}
  ∧ same_but_update_time (totals 11821) (later_totals 11821).
Proof.
  assert (counts_of noon {| wuwei_ww_cn_day_counts := [];
                            wuwei_ww_global_vars := [totals 11821] |}
          = counts_of noon {| wuwei_ww_cn_day_counts := [];
                              wuwei_ww_global_vars := [later_totals 11821] |})
    as H by reflexivity.
  split; [reflexivity|]. split; [reflexivity|]. split; [exact H|].
  exact (counts_determine_totals noon
           {| wuwei_ww_cn_day_counts := [];
              wuwei_ww_global_vars := [totals 11821] |}
           {| wuwei_ww_cn_day_counts := [];
              wuwei_ww_global_vars := [later_totals 11821] |}
           (totals 11821) (later_totals 11821) eq_refl eq_refl H).
Defined.

Lemma format_0d_field (w : nat) (n : Z) :
  (0 < w)%nat → 0 ≤ n < 10 ^ Z.of_nat w →
  String.length (format_0d w n) = w ∧ digits_value (format_0d w n) = Some n.
Proof.
  intros Hw Hn. destruct (format_0d_spec w n Hw) as (Hval & _ & Hlen); [lia|].
  split; [apply Hlen, Hn|done].
Qed.

(** The layout "YYYY-MM-DD HH:MM:SS". *)
Lemma strftime_layout (t : datetime) :
  clock_reading t →
  ∃ Y M D h m s,
    strftime t = Y +:+ "-" +:+ M +:+ "-" +:+ D +:+ " " +:+ h +:+ ":" +:+ m
                 +:+ ":" +:+ s
    ∧ (String.length Y = 4 ∧ digits_value Y = Some (year t))%nat
    ∧ (String.length M = 2 ∧ digits_value M = Some (month t))%nat
    ∧ (String.length D = 2 ∧ digits_value D = Some (day t))%nat
    ∧ (String.length h = 2 ∧ digits_value h = Some (hour t))%nat
    ∧ (String.length m = 2 ∧ digits_value m = Some (minute t))%nat
    ∧ (String.length s = 2 ∧ digits_value s = Some (second t))%nat
    ∧ String.length (strftime t) = 19%nat.
Proof.
  intros (Hy & Hm & Hd & Hh & Hmi & Hs).
  destruct (format_0d_field 4 (year t)) as [Ly Vy];
    [lia|change (10 ^ Z.of_nat 4) with 10000; lia|].
  destruct (format_0d_field 2 (month t)) as [Lm Vm];
    [lia|change (10 ^ Z.of_nat 2) with 100; lia|].
  destruct (format_0d_field 2 (day t)) as [Ld Vd];
    [lia|change (10 ^ Z.of_nat 2) with 100; lia|].
  destruct (format_0d_field 2 (hour t)) as [Lh Vh];
    [lia|change (10 ^ Z.of_nat 2) with 100; lia|].
  destruct (format_0d_field 2 (minute t)) as [Lmi Vmi];
    [lia|change (10 ^ Z.of_nat 2) with 100; lia|].
  destruct (format_0d_field 2 (second t)) as [Ls Vs];
    [lia|change (10 ^ Z.of_nat 2) with 100; lia|].
  exists (format_0d 4 (year t)), (format_0d 2 (month t)), (format_0d 2 (day t)),
    (format_0d 2 (hour t)), (format_0d 2 (minute t)), (format_0d 2 (second t)).
  split; [done|]. do 6 (split; [done|]).
  unfold strftime. rewrite !str_length_app, Ly, Lm, Ld, Lh, Lmi, Ls. done.
Qed.

(** X18: whenever the local time is a clock reading with a four-digit
    year, [timestamp2datetime] returns 19 bytes laid out as
    "YYYY-MM-DD HH:MM:SS", each field on its full width with zeros in front
    and reading back as the number it stands for; the refresh time shown by
    [update_counts] is the same layout after its label. *)
Theorem timestamp2datetime_layout (fromtimestamp : Z → datetime) (t : Z) :
  clock_reading (fromtimestamp t) →
  let dt := fromtimestamp t in
  (∃ Y M D h m s,
     timestamp2datetime fromtimestamp t
     = Y +:+ "-" +:+ M +:+ "-" +:+ D +:+ " " +:+ h +:+ ":" +:+ m +:+ ":" +:+ s
     ∧ (String.length Y = 4 ∧ digits_value Y = Some (year dt))%nat
     ∧ (String.length M = 2 ∧ digits_value M = Some (month dt))%nat
     ∧ (String.length D = 2 ∧ digits_value D = Some (day dt))%nat
     ∧ (String.length h = 2 ∧ digits_value h = Some (hour dt))%nat
     ∧ (String.length m = 2 ∧ digits_value m = Some (minute dt))%nat
     ∧ (String.length s = 2 ∧ digits_value s = Some (second dt))%nat
     ∧ String.length (timestamp2datetime fromtimestamp t) = 19%nat)
  ∧ ∀ res text confirmed suspected dead cured,
      counts_of dt res = Ok (text, confirmed, suspected, dead, cured) →
      text = "更新时间：" +:+ timestamp2datetime fromtimestamp t.
Proof.
  intros Hclock dt. split; [by apply strftime_layout|].
  intros res text c s d h. rewrite counts_of_cases.
  destruct (wuwei_ww_global_vars res); [done|]. by intros [= <- _ _ _ _].
Qed.

Lemma timestamp2datetime_layout_witness :
  clock_reading noon
  ∧ timestamp2datetime (λ _, noon) 1580558400 = "2020-02-01 12:00:00"
  ∧ String.length (timestamp2datetime (λ _, noon) 1580558400) = 19%nat.
Proof.
  assert (clock_reading noon) as H by (unfold clock_reading; simpl; lia).
  split; [exact H|]. split; [reflexivity|].
  destruct (timestamp2datetime_layout (λ _, noon) 1580558400 H)
    as [(Y & M & D & h & m & s & _ & _ & _ & _ & _ & _ & _ & Hlen) _].
  exact Hlen.
Defined.

(** ** The hover text *)

(** X19: on the province map the hover text of a point shows, under the
    name of the province, its confirmed, suspected, cured and dead counts,
    each behind its own label. *)
Theorem province_hover_text (name : string) (confirmed suspected cured dead : Z) :
  hover_text province_hovertemplate (name, confirmed, suspected, cured, dead)
  = "<b>" +:+ name +:+ "</b><br><br>"
    +:+ "确诊：" +:+ str_int confirmed +:+ "<br>"
    +:+ "疑似：" +:+ str_int suspected +:+ "<br>"
    +:+ "治愈：" +:+ str_int cured +:+ "<br>"
    +:+ "死亡：" +:+ str_int dead +:+ "<br>"
    +:+ "<extra></extra>".
Proof.
  unfold hover_text, customdata_cells.
  generalize (str_int confirmed), (str_int suspected), (str_int cured),
    (str_int dead).
  intros c s cu d. vm_compute. reflexivity.
Qed.

(** X20: on the city map the labels are one column off: behind 疑似
    (suspected) the hover text repeats the confirmed count, behind 治愈
    (cured) it shows the suspected count and behind 死亡 (dead) the cured
    count; the dead count of a city is never shown. *)
Theorem city_hover_text (name : string) (confirmed suspected cured dead : Z) :
  hover_text city_hovertemplate (name, confirmed, suspected, cured, dead)
  = "<b>" +:+ name +:+ "</b><br><br>"
    +:+ "确诊：" +:+ str_int confirmed +:+ "<br>"
    +:+ "疑似：" +:+ str_int confirmed +:+ "<br>"
    +:+ "治愈：" +:+ str_int suspected +:+ "<br>"
    +:+ "死亡：" +:+ str_int cured +:+ "<br>"
    +:+ "<extra></extra>"
  ∧ ∀ dead',
      hover_text city_hovertemplate (name, confirmed, suspected, cured, dead)
      = hover_text city_hovertemplate (name, confirmed, suspected, cured, dead').
Proof.
  unfold hover_text, customdata_cells.
  split; [|intros dead'; generalize (str_int dead')];
    generalize (str_int confirmed), (str_int suspected), (str_int cured),
      (str_int dead);
    intros; vm_compute; reflexivity.
Qed.

(** ** More about the intensity *)

Lemma ln_add1_mono (c1 c2 : Z) :
  0 ≤ c1 → c1 ≤ c2 →
  (0 <= ln (IZR c1 + 1) <= ln (IZR c2 + 1))%R
  ∧ (c1 < c2 → (ln (IZR c1 + 1) < ln (IZR c2 + 1))%R).
Proof.
  intros H1 H12.
  assert (0 <= IZR c1)%R as Hr1 by (by apply IZR_le).
  assert (∀ a b, 0 ≤ a → a < b → (ln (IZR a + 1) < ln (IZR b + 1))%R) as Hlt.
  { intros a b Ha Hab. apply ln_increasing.
    - apply Rplus_le_lt_0_compat; [by apply IZR_le | apply Rlt_0_1].
    - apply Rplus_lt_compat_r. by apply IZR_lt. }
  assert (∀ a b, 0 ≤ a → a ≤ b → (ln (IZR a + 1) <= ln (IZR b + 1))%R) as Hle.
  { intros a b Ha Hab. destruct (decide (a = b)) as [->|Hne].
    - apply Rle_refl.
    - apply Rlt_le, Hlt; lia. }
  split; [split|].
  - rewrite <-ln_1. replace 1%R with (IZR 0 + 1)%R at 1 by apply Rplus_0_l.
    by apply Hle.
  - by apply Hle.
  - intros ?. apply Hlt; lia.
Qed.

(** X21: on both maps the colour follows the confirmed counts: for two rows
    of the payload whose counts are non-negative and below the largest int64
    the intensities are finite and not negative, the row with the larger
    count does not have the smaller intensity, and equal counts have equal
    intensities.  (The order of the float64 values is that of the real
    numbers they approximate; two counts that differ can share a float64, so
    the order is not strict.) *)
Theorem intensity_monotone (tr : Go.Choroplethmapbox)
    (rows : list (string * Z * Z * Z * Z))
    (i j : nat) (ri rj : string * Z * Z * Z * Z) :
  (∃ data, province_trace data = Ok tr ∧ rows = map province_tuple data)
  ∨ (∃ upstream fs fs' res,
       update_city_map upstream fs = (Ok tr, fs')
       ∧ Requests.fetch upstream = Ok res
       ∧ rows = concat (map contribution (getAreaStat res))) →
  Forall (λ r, Np.in_int64 r.1.1.1.2) rows →
  rows !! i = Some ri →
  rows !! j = Some rj →
  0 ≤ ri.1.1.1.2 ≤ rj.1.1.1.2 →
  rj.1.1.1.2 < 2 ^ 63 - 1 →
  ∃ zi zj : R,
    Go.z tr !! i = Some (Np.Finite zi)
    ∧ Go.z tr !! j = Some (Np.Finite zj)
    ∧ (0 <= zi <= zj)%R
    ∧ (ri.1.1.1.2 = rj.1.1.1.2 → zi = zj).
Proof.
  intros Htr _ Hi Hj [H0 Hij] Hmax.
  destruct (trace_intensities tr rows Htr) as (_ & _ & Hz).
  destruct (ln_add1_mono ri.1.1.1.2 rj.1.1.1.2 H0 Hij) as [Hle _].
  exists (ln (IZR ri.1.1.1.2 + 1)), (ln (IZR rj.1.1.1.2 + 1)).
  rewrite (Hz i ri Hi), (Hz j rj Hj).
  rewrite !wrap_int64_succ by lia. rewrite !log1_add1 by lia.
  split; [done|]. split; [done|]. split; [done|]. by intros ->.
Qed.

Lemma intensity_monotone_witness :
  ((∃ data, province_trace data = Ok two_provinces_trace
            ∧ [("北京", 183, 0, 9, 1); ("湖北", 9074, 0, 215, 294)]
              = map province_tuple data)
   ∨ (∃ upstream fs fs' res,
        update_city_map upstream fs = (Ok two_provinces_trace, fs')
        ∧ Requests.fetch upstream = Ok res
        ∧ [("北京", 183, 0, 9, 1); ("湖北", 9074, 0, 215, 294)]
          = concat (map contribution (getAreaStat res))))
  ∧ Forall (λ r, Np.in_int64 r.1.1.1.2)
      [("北京", 183, 0, 9, 1); ("湖北", 9074, 0, 215, 294)]
  ∧ 0 ≤ 183 ≤ 9074
  ∧ 9074 < 2 ^ 63 - 1
  ∧ ∃ zi zj : R,
      Go.z two_provinces_trace !! 0%nat = Some (Np.Finite zi)
      ∧ Go.z two_provinces_trace !! 1%nat = Some (Np.Finite zj)
      ∧ (0 <= zi <= zj)%R
      ∧ (183 = 9074 → zi = zj).
Proof.
  assert ((∃ data, province_trace data = Ok two_provinces_trace
                   ∧ [("北京", 183, 0, 9, 1); ("湖北", 9074, 0, 215, 294)]
                     = map province_tuple data)
          ∨ (∃ upstream fs fs' res,
               update_city_map upstream fs = (Ok two_provinces_trace, fs')
               ∧ Requests.fetch upstream = Ok res
               ∧ [("北京", 183, 0, 9, 1); ("湖北", 9074, 0, 215, 294)]
                 = concat (map contribution (getAreaStat res)))) as H
    by (left; exists [beijing; hubei_cities]; split; reflexivity).
  assert (Forall (λ r, Np.in_int64 r.1.1.1.2)
            [("北京", 183, 0, 9, 1); ("湖北", 9074, 0, 215, 294)]) as Hcol
    by (repeat constructor; unfold Np.in_int64; simpl; lia).
  assert (0 ≤ 183 ≤ 9074) as Hc by lia.
  assert (9074 < 2 ^ 63 - 1) as Hmax by lia.
  split; [exact H|]. split; [exact Hcol|]. split; [exact Hc|].
  split; [exact Hmax|].
  exact (intensity_monotone two_provinces_trace
           [("北京", 183, 0, 9, 1); ("湖北", 9074, 0, 215, 294)] 0 1
           ("北京", 183, 0, 9, 1) ("湖北", 9074, 0, 215, 294)
           H Hcol eq_refl eq_refl Hc Hmax).
Defined.

Example split_date : split "/" "1/23" = ["1"; "23"].
Proof. reflexivity. Qed.

Example rstrip_hubei : rstrip "省" "湖北省" = "湖北".
Proof. reflexivity. Qed.

Example format_42 : format_0d 5 42 = "00042".
Proof. reflexivity. Qed.

Example format_big : format_0d 5 123456 = "123456".
Proof. reflexivity. Qed.

Example format_neg : format_0d 5 (-7) = "-0007".
Proof. reflexivity. Qed.

Example sorted_ex : sorted [("2020-1-3", 1, 2, 3, 4); ("2020-1-23", 5, 6, 7, 8)]
  = [("2020-1-23", 5, 6, 7, 8); ("2020-1-3", 1, 2, 3, 4)].
Proof. vm_compute. reflexivity. Qed.

Example city_table_ex :
  rows_of <$> province_loop no_rows [beijing; hubei_cities]
  = Ok [("北京", 183, 0, 9, 1); ("武汉", 4109, 0, 224, 224);
        ("黄冈", 1002, 0, 27, 15)].
Proof. reflexivity. Qed.

Example city_table_missing_cities :
  province_loop no_rows [beijing; hubei 1000] = Raise KeyError.
Proof. reflexivity. Qed.

Example update_counts_ex :
  update_counts noon
    (reply 200 {| wuwei_ww_cn_day_counts := [jan23];
                  wuwei_ww_global_vars := [totals 11821] |})
  = Ok ("更新时间：2020-02-01 12:00:00", "11821", "15238", "00259", "00243").
Proof. reflexivity. Qed.

Example update_graph_series_ex :
  update_graph_series
    [{| date := "2/1"; confirm := 14380; suspect := 19544; dead := 304;
        heal := 328 |}; jan23]
  = Ok (["2020-1-23"; "2020-2-1"], [100; 14380], [50; 19544], [2; 304],
        [5; 328]).
Proof. vm_compute. reflexivity. Qed.
